(** * The LinkedIn OAuth provider of chuk-mcp-linkedin

    A shallow embedding of [src/chuk_mcp_linkedin/oauth/provider.py]:
    the correlation between a pending LinkedIn authorization (keyed by a
    transient state parameter) and the MCP authorization code that is
    issued once LinkedIn calls back, the exchange of that code for a
    token, and the validation of access tokens.

    Conventions of the embedding.
    - A Python [dict] used as a map is a [gmap]; a [dict] with a fixed
      set of keys is a record; an optional key or a [None] value is an
      [option].
    - [time.time()] is an explicit argument [now], in whole seconds, in
      [Z]; the provider only subtracts two readings and compares the
      difference with 600.
    - [secrets.token_urlsafe(32)] is an explicit argument.
    - The asynchronous methods run to completion one at a time; a method
      is a function from the state before to the state after and either
      a returned value or the raised exception.  Mutations performed
      before a [raise] stay in the state after.
    - The token store ([chuk_mcp_server.oauth.TokenStore]) and the HTTP
      calls of [LinkedInOAuthClient] are outside the provider: the
      provider is defined over an arbitrary token store and an arbitrary
      behaviour of the LinkedIn endpoints.  The methods of the token
      store do not raise, and those that only read leave the store as it
      is. *)

From Stdlib Require Import ZArith Ascii String DecimalString.
From stdpp Require Import gmap strings finite.

(** ** Exceptions and results *)

Inductive exn : Type :=
| AuthorizeError (error error_description : string)
| TokenError (error error_description : string)
| ValueError (message : string)
| TypeError (message : string).

Inductive result (A : Type) : Type :=
| Return (a : A)
| Raise (e : exn).
Arguments Return {A} a.
Arguments Raise {A} e.

Definition is_return {A} (r : result A) : bool :=
  match r with Return _ => true | Raise _ => false end.

(** The error classes of the specification, as the code raises them. *)
Definition InvalidClient : exn :=
  AuthorizeError "invalid_client" "Invalid client_id or redirect_uri".
Definition InvalidState : exn :=
  ValueError "Invalid or expired state parameter".
Definition is_invalid_grant (e : exn) : Prop :=
  exists d, e = TokenError "invalid_grant" d.
Definition is_invalid_token (e : exn) : Prop :=
  exists d, e = TokenError "invalid_token" d.

(** Python truthiness of an optional string: [None] and [""] are false. *)
Definition truthy (o : option string) : bool :=
  match o with
  | Some s => negb (bool_decide (s = ""))
  | None => false
  end.

(** ** Data *)

(** [AuthorizationParams] of chuk_mcp_server, the fields the provider reads. *)
Record AuthorizationParams : Type := {
  client_id : string;
  redirect_uri : string;
  state : option string;
  scope : option string;
  code_challenge : option string;
  code_challenge_method : option string;
}.

(** An entry of [self._pending_authorizations].  [authorize] reads the
    key ["user_id"] with [.get], so the key is optional; the other six
    keys are the ones [authorize] writes. *)
Record PendingAuthorization : Type := {
  p_user_id : option string;
  mcp_client_id : string;
  mcp_redirect_uri : string;
  mcp_state : string;
  mcp_scope : option string;
  mcp_code_challenge : option string;
  mcp_code_challenge_method : option string;
}.

(** An entry of [_authorization_code_cache]; the dictionary that the token
    store returns from [validate_authorization_code] has the same keys. *)
Record CodeData : Type := {
  cd_user_id : string;
  cd_client_id : string;
  cd_redirect_uri : string;
  cd_scope : option string;
  cd_code_challenge : option string;
  cd_code_challenge_method : option string;
  cd_created_at : Z;
}.

(** The dictionary [get_external_token] returns. *)
Record ExternalToken : Type := {
  et_access_token : string;
  et_refresh_token : option string;
  et_expires_in : option Z;
}.

(** The dictionary [token_store.validate_access_token] returns. *)
Record TokenData : Type := {
  td_user_id : string;
  td_client_id : string;
  td_scope : option string;
}.

Record OAuthToken : Type := {
  access_token : string;
  token_type : string;
  expires_in : Z;
  refresh_token : option string;
  token_scope : option string;
}.

(** The JSON object of LinkedIn's token endpoint: every key may be absent. *)
Record TokenResponse : Type := {
  tr_access_token : option string;
  tr_refresh_token : option string;
  tr_expires_in : option Z;
}.

(** The JSON object of LinkedIn's userinfo endpoint. *)
Record UserInfo : Type := {
  sub : option string;
}.

(** What [authorize] returns: [{code, state}] or
    [{authorization_url, state, requires_external_authorization: True}]. *)
Inductive AuthorizeResult : Type :=
| CodeIssued (code state : string)
| ExternalRedirect (authorization_url state : string).

(** What [handle_external_callback] returns. *)
Record CallbackResult : Type := {
  cb_code : string;
  cb_state : string;
  cb_redirect_uri : string;
}.

(** What [validate_access_token] returns: [{**token_data,
    "external_access_token": ...}] in standard mode and [{"user_id",
    "external_access_token", "valid": True}] in proxy mode. *)
Record ValidatedToken : Type := {
  vt_user_id : string;
  vt_external_access_token : string;
  vt_token_data : option TokenData;
}.

(** ** The collaborators *)

(** The methods of the token store that the provider calls.  The store
    reads the clock itself; here every method receives [now].  Methods
    that only read return no new store. *)
Module TokenStore.
Record t (S : Type) : Type := {
  validate_client : S -> string -> string -> bool;
  create_authorization_code :
    S -> Z -> string -> string -> string -> option string ->
    option string -> option string -> S * string;
  validate_authorization_code :
    S -> Z -> string -> string -> string -> option string ->
    S * option CodeData;
  create_access_token :
    S -> Z -> string -> string -> option string -> S * (string * string);
  validate_access_token : S -> Z -> string -> option TokenData;
  get_external_token : S -> Z -> string -> string -> option ExternalToken;
  is_external_token_expired : S -> Z -> string -> string -> bool;
  link_external_token :
    S -> Z -> string -> string -> option string -> Z -> string -> S;
  update_external_token :
    S -> Z -> string -> string -> option string -> Z -> string -> S;
}.
Arguments validate_client {S} _.
Arguments create_authorization_code {S} _.
Arguments validate_authorization_code {S} _.
Arguments create_access_token {S} _.
Arguments validate_access_token {S} _.
Arguments get_external_token {S} _.
Arguments is_external_token_expired {S} _.
Arguments link_external_token {S} _.
Arguments update_external_token {S} _.
End TokenStore.

(** [LinkedInOAuthClient]: the three HTTP calls answer [None] when they
    raise ([response.raise_for_status()] or a transport error); the
    authorization URL is a pure function of the state parameter. *)
Module LinkedInOAuthClient.
Record t : Type := {
  get_authorization_url : string -> string;
  exchange_code_for_token : string -> option TokenResponse;
  refresh_access_token : string -> option TokenResponse;
  get_user_info : string -> option UserInfo;
}.
End LinkedInOAuthClient.

(** ** The provider *)

(** The mutable state: the module-level [_authorization_code_cache], and
    of the provider object its token store and
    [_pending_authorizations]. *)
Record State (S : Type) : Type := {
  _authorization_code_cache : gmap string CodeData;
  token_store : S;
  _pending_authorizations : gmap string PendingAuthorization;
}.
Arguments Build_State {S} _ _ _.
Arguments _authorization_code_cache {S} _.
Arguments token_store {S} _.
Arguments _pending_authorizations {S} _.

Section Provider.
Context {S : Type}.
Variable ops : TokenStore.t S.
(** [self.proxy_mode], fixed by [__init__] from [OAUTH_PROXY_MODE]. *)
Variable proxy_mode : bool.

Definition authorize (now : Z) (st : State S)
    (linkedin_client : LinkedInOAuthClient.t)
    (params : AuthorizationParams) (linkedin_state : string)
  : State S * result AuthorizeResult :=
  if negb (TokenStore.validate_client ops (token_store st)
             (client_id params) (redirect_uri params))
  then (st, Raise InvalidClient)
  else
    let state := default "" (state params) in
    let user_id := _pending_authorizations st !! state ≫= p_user_id in
    let redirect :=
      (Build_State (_authorization_code_cache st) (token_store st)
         (<[linkedin_state :=
              {| p_user_id := None;
                 mcp_client_id := client_id params;
                 mcp_redirect_uri := redirect_uri params;
                 mcp_state := state;
                 mcp_scope := scope params;
                 mcp_code_challenge := code_challenge params;
                 mcp_code_challenge_method := code_challenge_method params |}]>
            (_pending_authorizations st)),
       Return (ExternalRedirect
                 (LinkedInOAuthClient.get_authorization_url linkedin_client
                    linkedin_state)
                 linkedin_state)) in
    match user_id with
    | Some uid =>
        if truthy (Some uid) then
          match TokenStore.get_external_token ops (token_store st) now uid "linkedin" with
          | Some _ =>
              if negb (TokenStore.is_external_token_expired ops (token_store st)
                         now uid "linkedin")
              then
                let '(store', code) :=
                  TokenStore.create_authorization_code ops (token_store st) now
                    uid (client_id params) (redirect_uri params) (scope params)
                    (code_challenge params) (code_challenge_method params) in
                (Build_State (_authorization_code_cache st) store'
                   (delete state (_pending_authorizations st)),
                 Return (CodeIssued code state))
              else redirect
          | None => redirect
          end
        else redirect
    | None => redirect
    end.

(** Lines 244-270 of [exchange_authorization_code]: the look-up in the
    module-level cache.  It raises, or leaves the cache as it should be
    after the look-up together with [code_data]. *)
Definition check_code_cache (now : Z) (cache : gmap string CodeData)
    (code client_id redirect_uri : string) (code_verifier : option string)
  : result (gmap string CodeData * option CodeData) :=
  match cache !! code with
  | Some cached_data =>
      let code_age := (now - cd_created_at cached_data)%Z in
      if (code_age <? 600)%Z then
        if bool_decide (cd_client_id cached_data = client_id)
           && bool_decide (cd_redirect_uri cached_data = redirect_uri)
        then
          if truthy (cd_code_challenge cached_data)
             && truthy (cd_code_challenge_method cached_data)
             && negb (truthy code_verifier)
          then Raise (TokenError "invalid_grant" "code_verifier required for PKCE")
          else Return (delete code cache, Some cached_data)
        else Return (cache, None)
      else Return (delete code cache, None)
  | None => Return (cache, None)
  end.

Definition exchange_authorization_code (now : Z) (st : State S)
    (code client_id redirect_uri : string) (code_verifier : option string)
  : State S * result OAuthToken :=
  match check_code_cache now (_authorization_code_cache st) code client_id
          redirect_uri code_verifier with
  | Raise e => (st, Raise e)
  | Return (cache, cached) =>
      let '(store, code_data) :=
        match cached with
        | Some cd => (token_store st, Some cd)
        | None =>
            TokenStore.validate_authorization_code ops (token_store st) now
              code client_id redirect_uri code_verifier
        end in
      match code_data with
      | None =>
          (Build_State cache store (_pending_authorizations st),
           Raise (TokenError "invalid_grant"
                    "Invalid or expired authorization code"))
      | Some code_data =>
          let user_id := cd_user_id code_data in
          if proxy_mode then
            match TokenStore.get_external_token ops store now user_id "linkedin" with
            | None =>
                (Build_State cache store (_pending_authorizations st),
                 Raise (TokenError "invalid_grant" "LinkedIn token not found"))
            | Some linkedin_token_data =>
                (Build_State cache store (_pending_authorizations st),
                 Return {| access_token := et_access_token linkedin_token_data;
                           token_type := "Bearer";
                           expires_in :=
                             default 5184000%Z (et_expires_in linkedin_token_data);
                           refresh_token := et_refresh_token linkedin_token_data;
                           token_scope := cd_scope code_data |})
            end
          else
            let '(store', (access_token, refresh_token)) :=
              TokenStore.create_access_token ops store now user_id client_id
                (cd_scope code_data) in
            (Build_State cache store' (_pending_authorizations st),
             Return {| access_token := access_token;
                       token_type := "Bearer";
                       expires_in := 3600%Z;
                       refresh_token := Some refresh_token;
                       token_scope := cd_scope code_data |})
      end
  end.

Definition validate_access_token (now : Z) (st : State S)
    (linkedin_client : LinkedInOAuthClient.t) (token : string)
  : State S * result ValidatedToken :=
  if proxy_mode then
    match LinkedInOAuthClient.get_user_info linkedin_client token ≫= sub with
    | Some user_id =>
        (st, Return {| vt_user_id := user_id;
                       vt_external_access_token := token;
                       vt_token_data := None |})
    | None =>
        (st, Raise (TokenError "invalid_token" "Invalid or expired LinkedIn token"))
    end
  else
    match TokenStore.validate_access_token ops (token_store st) now token with
    | None =>
        (st, Raise (TokenError "invalid_token" "Invalid or expired access token"))
    | Some token_data =>
        let user_id := td_user_id token_data in
        match TokenStore.get_external_token ops (token_store st) now user_id "linkedin" with
        | None =>
            (st, Raise (TokenError "insufficient_scope" "LinkedIn account not linked"))
        | Some linkedin_token_data =>
            if TokenStore.is_external_token_expired ops (token_store st) now
                 user_id "linkedin"
            then
              let refresh_token := et_refresh_token linkedin_token_data in
              match refresh_token with
              | Some rt =>
                  if truthy (Some rt) then
                    match LinkedInOAuthClient.refresh_access_token linkedin_client rt with
                    | Some new_token =>
                        match tr_access_token new_token with
                        | Some new_access =>
                            let store' :=
                              TokenStore.update_external_token ops (token_store st) now
                                user_id new_access
                                (match tr_refresh_token new_token with
                                 | Some r => Some r
                                 | None => refresh_token
                                 end)
                                (default 5184000%Z (tr_expires_in new_token))
                                "linkedin" in
                            let st' :=
                              Build_State (_authorization_code_cache st) store'
                                (_pending_authorizations st) in
                            match TokenStore.get_external_token ops store' now
                                    user_id "linkedin" with
                            | Some linkedin_token_data =>
                                (st', Return {| vt_user_id := user_id;
                                                vt_external_access_token :=
                                                  et_access_token linkedin_token_data;
                                                vt_token_data := Some token_data |})
                            | None =>
                                (* [None["access_token"]] after the [try]:
                                   the TypeError propagates. *)
                                (st', Raise (TypeError
                                               "'NoneType' object is not subscriptable"))
                            end
                        | None =>
                            (st, Raise (TokenError "invalid_token"
                                          "Failed to refresh LinkedIn token"))
                        end
                    | None =>
                        (st, Raise (TokenError "invalid_token"
                                      "Failed to refresh LinkedIn token"))
                    end
                  else
                    (st, Raise (TokenError "invalid_token"
                                  "LinkedIn token expired and no refresh token available"))
              | None =>
                  (st, Raise (TokenError "invalid_token"
                                "LinkedIn token expired and no refresh token available"))
              end
            else
              (st, Return {| vt_user_id := user_id;
                             vt_external_access_token :=
                               et_access_token linkedin_token_data;
                             vt_token_data := Some token_data |})
        end
    end.

Definition handle_external_callback (now : Z) (st : State S)
    (linkedin_client : LinkedInOAuthClient.t) (code state : string)
  : State S * result CallbackResult :=
  match _pending_authorizations st !! state with
  | None => (st, Raise InvalidState)
  | Some pending =>
      match LinkedInOAuthClient.exchange_code_for_token linkedin_client code with
      | None => (st, Raise (ValueError "LinkedIn token exchange failed"))
      | Some linkedin_token =>
          match tr_access_token linkedin_token with
          | None => (st, Raise (ValueError "Failed to get LinkedIn user info"))
          | Some linkedin_access =>
              match LinkedInOAuthClient.get_user_info linkedin_client linkedin_access
                      ≫= sub with
              | None => (st, Raise (ValueError "Failed to get LinkedIn user info"))
              | Some user_id =>
                  let store1 :=
                    TokenStore.link_external_token ops (token_store st) now
                      user_id linkedin_access (tr_refresh_token linkedin_token)
                      (default 5184000%Z (tr_expires_in linkedin_token))
                      "linkedin" in
                  let '(store2, mcp_code) :=
                    TokenStore.create_authorization_code ops store1 now
                      user_id (mcp_client_id pending) (mcp_redirect_uri pending)
                      (mcp_scope pending) (mcp_code_challenge pending)
                      (mcp_code_challenge_method pending) in
                  (Build_State
                     (<[mcp_code :=
                          {| cd_user_id := user_id;
                             cd_client_id := mcp_client_id pending;
                             cd_redirect_uri := mcp_redirect_uri pending;
                             cd_scope := mcp_scope pending;
                             cd_code_challenge := mcp_code_challenge pending;
                             cd_code_challenge_method :=
                               mcp_code_challenge_method pending;
                             cd_created_at := now |}]>
                        (_authorization_code_cache st))
                     store2
                     (delete state (_pending_authorizations st)),
                   Return {| cb_code := mcp_code;
                             cb_state := mcp_state pending;
                             cb_redirect_uri := mcp_redirect_uri pending |})
              end
          end
      end
  end.

End Provider.

(** ** An in-memory token store

    A reference token store with the contract the provider relies on:
    clients are validated against their registered redirect URIs; an
    authorization code is created under a fresh name and validated by
    consume-or-fail (client, redirect URI, a lifetime of 600 seconds and
    the PKCE verifier, checked by [pkce]); access tokens live 3600
    seconds; an external token is kept per [(user_id, provider)], a write
    replacing the record whole.  Fresh names come from a counter. *)
Module MemStore.

Record t : Type := {
  clients : gmap string (list string);
  authorization_codes : gmap string CodeData;
  access_tokens : gmap string (TokenData * Z);
  external_tokens : gmap (string * string) (ExternalToken * Z);
  counter : nat;
}.

Definition empty : t :=
  {| clients := ∅; authorization_codes := ∅; access_tokens := ∅;
     external_tokens := ∅; counter := 0 |}.

Definition fresh (prefix : string) (n : nat) : string :=
  prefix +:+ NilEmpty.string_of_uint (Nat.to_uint n).

Definition register_client (s : t) (client_id : string)
    (redirect_uris : list string) : t :=
  {| clients := <[client_id := redirect_uris]> (clients s);
     authorization_codes := authorization_codes s;
     access_tokens := access_tokens s;
     external_tokens := external_tokens s;
     counter := counter s |}.

Definition validate_client (s : t) (client_id redirect_uri : string) : bool :=
  match clients s !! client_id with
  | Some uris => bool_decide (redirect_uri ∈ uris)
  | None => false
  end.

Definition create_authorization_code (s : t) (now : Z)
    (user_id client_id redirect_uri : string)
    (scope code_challenge code_challenge_method : option string)
  : t * string :=
  let code := fresh "code-" (counter s) in
  ({| clients := clients s;
      authorization_codes :=
        <[code := {| cd_user_id := user_id;
                     cd_client_id := client_id;
                     cd_redirect_uri := redirect_uri;
                     cd_scope := scope;
                     cd_code_challenge := code_challenge;
                     cd_code_challenge_method := code_challenge_method;
                     cd_created_at := now |}]> (authorization_codes s);
      access_tokens := access_tokens s;
      external_tokens := external_tokens s;
      counter := S (counter s) |}, code).

Section WithPkce.
(** [pkce method challenge verifier]: does the verifier answer the
    challenge under the method. *)
Variable pkce : option string -> string -> string -> bool.

Definition pkce_ok (cd : CodeData) (code_verifier : option string) : bool :=
  match cd_code_challenge cd with
  | None => true
  | Some challenge =>
      match code_verifier with
      | Some v => pkce (cd_code_challenge_method cd) challenge v
      | None => false
      end
  end.

Definition validate_authorization_code (s : t) (now : Z)
    (code client_id redirect_uri : string) (code_verifier : option string)
  : t * option CodeData :=
  match authorization_codes s !! code with
  | Some cd =>
      if bool_decide (cd_client_id cd = client_id)
         && bool_decide (cd_redirect_uri cd = redirect_uri)
         && (now - cd_created_at cd <? 600)%Z
         && pkce_ok cd code_verifier
      then
        ({| clients := clients s;
            authorization_codes := delete code (authorization_codes s);
            access_tokens := access_tokens s;
            external_tokens := external_tokens s;
            counter := counter s |}, Some cd)
      else (s, None)
  | None => (s, None)
  end.
End WithPkce.

Definition create_access_token (s : t) (now : Z) (user_id client_id : string)
    (scope : option string) : t * (string * string) :=
  let access := fresh "access-" (counter s) in
  let refresh := fresh "refresh-" (counter s) in
  ({| clients := clients s;
      authorization_codes := authorization_codes s;
      access_tokens :=
        <[access := ({| td_user_id := user_id; td_client_id := client_id;
                        td_scope := scope |}, (now + 3600)%Z)]>
          (access_tokens s);
      external_tokens := external_tokens s;
      counter := S (counter s) |}, (access, refresh)).

Definition validate_access_token (s : t) (now : Z) (token : string)
  : option TokenData :=
  match access_tokens s !! token with
  | Some (td, expires_at) => if (now <? expires_at)%Z then Some td else None
  | None => None
  end.

Definition get_external_token (s : t) (now : Z) (user_id provider : string)
  : option ExternalToken :=
  fst <$> external_tokens s !! (user_id, provider).

Definition is_external_token_expired (s : t) (now : Z)
    (user_id provider : string) : bool :=
  match external_tokens s !! (user_id, provider) with
  | Some (_, expires_at) => (expires_at <=? now)%Z
  | None => true
  end.

Definition link_external_token (s : t) (now : Z) (user_id access_token : string)
    (refresh_token : option string) (expires_in : Z) (provider : string) : t :=
  {| clients := clients s;
     authorization_codes := authorization_codes s;
     access_tokens := access_tokens s;
     external_tokens :=
       <[(user_id, provider) :=
           ({| et_access_token := access_token;
               et_refresh_token := refresh_token;
               et_expires_in := Some expires_in |}, (now + expires_in)%Z)]>
         (external_tokens s);
     counter := counter s |}.

Definition ops (pkce : option string -> string -> string -> bool)
  : TokenStore.t t :=
  {| TokenStore.validate_client := validate_client;
     TokenStore.create_authorization_code := create_authorization_code;
     TokenStore.validate_authorization_code := validate_authorization_code pkce;
     TokenStore.create_access_token := create_access_token;
     TokenStore.validate_access_token := validate_access_token;
     TokenStore.get_external_token := get_external_token;
     TokenStore.is_external_token_expired := is_external_token_expired;
     TokenStore.link_external_token := link_external_token;
     TokenStore.update_external_token := link_external_token |}.

(** The verifier answers the challenge when they are the same string
    (the [plain] method of PKCE). *)
Definition plain (method : option string) (challenge verifier : string) : bool :=
  bool_decide (challenge = verifier).

End MemStore.

(** ** A concrete deployment, for running the provider

    One registered client, an empty cache, and a LinkedIn that accepts
    the authorization code ["li-code"], knows the access token
    ["li-access"] as user ["user-1"] and refreshes ["li-refresh"]. *)
Module Example.

Definition linkedin : LinkedInOAuthClient.t :=
  {| LinkedInOAuthClient.get_authorization_url := fun s =>
       "https://www.linkedin.com/oauth/v2/authorization?state=" +:+ s;
     LinkedInOAuthClient.exchange_code_for_token := fun c =>
       if bool_decide (c = "li-code")
       then Some {| tr_access_token := Some "li-access";
                    tr_refresh_token := Some "li-refresh";
                    tr_expires_in := Some 5184000%Z |}
       else None;
     LinkedInOAuthClient.refresh_access_token := fun r =>
       if bool_decide (r = "li-refresh")
       then Some {| tr_access_token := Some "li-access-2";
                    tr_refresh_token := None;
                    tr_expires_in := Some 5184000%Z |}
       else None;
     LinkedInOAuthClient.get_user_info := fun a =>
       if bool_decide (a = "li-access")
       then Some {| sub := Some "user-1" |}
       else None |}.

(** A LinkedIn whose endpoints all fail. *)
Definition linkedin_down : LinkedInOAuthClient.t :=
  {| LinkedInOAuthClient.get_authorization_url :=
       LinkedInOAuthClient.get_authorization_url linkedin;
     LinkedInOAuthClient.exchange_code_for_token := fun _ => None;
     LinkedInOAuthClient.refresh_access_token := fun _ => None;
     LinkedInOAuthClient.get_user_info := fun _ => None |}.

Definition ops : TokenStore.t MemStore.t := MemStore.ops MemStore.plain.

Definition cb_uri : string := "https://app.example/cb".

Definition store0 : MemStore.t :=
  MemStore.register_client MemStore.empty "client-1" [cb_uri].

Definition st0 : State MemStore.t := Build_State ∅ store0 ∅.

Definition params (challenge method : option string) : AuthorizationParams :=
  {| client_id := "client-1"; redirect_uri := cb_uri;
     state := Some "s1"; scope := Some "profile";
     code_challenge := challenge; code_challenge_method := method |}.

(** [authorize] at time 0 under the generated state ["ls-1"], then
    LinkedIn's callback at time [t1]. *)
Definition authorized (challenge method : option string) : State MemStore.t :=
  fst (authorize ops 0 st0 linkedin (params challenge method) "ls-1").

Definition called_back (challenge method : option string) (t1 : Z)
  : State MemStore.t :=
  fst (handle_external_callback ops t1 (authorized challenge method)
         linkedin "li-code" "ls-1").

(** After a completed callback at time 0, a pending authorization that
    names the linked user under the client's state ["s1"]. *)
Definition st_linked : State MemStore.t :=
  let st := called_back None None 0 in
  Build_State (_authorization_code_cache st) (token_store st)
    (<["s1" := {| p_user_id := Some "user-1";
                  mcp_client_id := "client-1";
                  mcp_redirect_uri := cb_uri;
                  mcp_state := "s1";
                  mcp_scope := Some "profile";
                  mcp_code_challenge := None;
                  mcp_code_challenge_method := None |}]>
       (_pending_authorizations st)).

(** A code that only the cache knows (the token store of the exchange
    does not see what the callback wrote), for a user without a linked
    external token. *)
Definition orphan_code : CodeData :=
  {| cd_user_id := "user-2"; cd_client_id := "client-1";
     cd_redirect_uri := cb_uri; cd_scope := Some "profile";
     cd_code_challenge := None; cd_code_challenge_method := None;
     cd_created_at := 0 |}.

Definition st_unlinked : State MemStore.t :=
  Build_State {[ "code-9" := orphan_code ]} store0 ∅.

(** User ["user-1"] linked at time 100 with an external token that
    lives 60 seconds, and a local access token issued at time 150. *)
Definition st_expired : State MemStore.t :=
  Build_State ∅
    (fst (MemStore.create_access_token
            (MemStore.link_external_token store0 100 "user-1" "li-access"
               (Some "li-refresh") 60 "linkedin")
            150 "user-1" "client-1" (Some "profile")))
    ∅.

End Example.

(** ** Contracts of the token store and statements under test *)

(** The entry [authorize] stores before it redirects to LinkedIn. *)
Definition pending_of (params : AuthorizationParams) : PendingAuthorization :=
  {| p_user_id := None;
     mcp_client_id := client_id params;
     mcp_redirect_uri := redirect_uri params;
     mcp_state := default "" (state params);
     mcp_scope := scope params;
     mcp_code_challenge := code_challenge params;
     mcp_code_challenge_method := code_challenge_method params |}.

(** The user [authorize] resolves from the state parameter has a linked
    external token that is not expired. *)
Definition linked {S} (ops : TokenStore.t S) (now : Z) (st : State S)
    (params : AuthorizationParams) (user_id : string) : Prop :=
  (exists pending,
      _pending_authorizations st !! default "" (state params) = Some pending
      /\ p_user_id pending = Some user_id)
  /\ user_id <> ""
  /\ is_Some (TokenStore.get_external_token ops (token_store st) now user_id
                "linkedin")
  /\ TokenStore.is_external_token_expired ops (token_store st) now user_id
       "linkedin" = false.

(** A code validated by the store that created it carries the scope it
    was created with. *)
Definition code_keeps_scope {S} (ops : TokenStore.t S) : Prop :=
  forall s now user_id client_id redirect_uri scope challenge method s1 code
         now' client_id' redirect_uri' verifier s2 cd,
    TokenStore.create_authorization_code ops s now user_id client_id
      redirect_uri scope challenge method = (s1, code) ->
    TokenStore.validate_authorization_code ops s1 now' code client_id'
      redirect_uri' verifier = (s2, Some cd) ->
    cd_scope cd = scope.

(** Validating an authorization code does not touch the access tokens. *)
Definition code_validation_keeps_tokens {S} (ops : TokenStore.t S) : Prop :=
  forall s now code client_id redirect_uri verifier now' token,
    TokenStore.validate_access_token ops
      (fst (TokenStore.validate_authorization_code ops s now code client_id
              redirect_uri verifier)) now' token
    = TokenStore.validate_access_token ops s now' token.

(** An external token that was just updated is the one that is read. *)
Definition update_then_get {S} (ops : TokenStore.t S) : Prop :=
  forall s now user_id access refresh expires provider,
    exists token,
      TokenStore.get_external_token ops
        (TokenStore.update_external_token ops s now user_id access refresh
           expires provider) now user_id provider = Some token
      /\ et_access_token token = access.

(** "A pending authorization older than [ttl] seconds is refused":
    created by [authorize] at [t0], its callback at [t1] fails with
    [InvalidState]. *)
Definition pending_entries_expire (ttl : Z) : Prop :=
  forall (S : Type) (ops : TokenStore.t S) t0 t1 st linkedin0 linkedin1
         params linkedin_state st1 url code,
    authorize ops t0 st linkedin0 params linkedin_state
    = (st1, Return (ExternalRedirect url linkedin_state)) ->
    (ttl < t1 - t0)%Z ->
    snd (handle_external_callback ops t1 st1 linkedin1 code linkedin_state)
    = Raise InvalidState.

(** "In standard mode an expired external token with a refresh token is
    always refreshed without a failure", over the token stores that obey
    [update_then_get]. *)
Definition refresh_never_fails : Prop :=
  forall (S : Type) (ops : TokenStore.t S) now st linkedin token td lt rt,
    update_then_get ops ->
    TokenStore.validate_access_token ops (token_store st) now token = Some td ->
    TokenStore.get_external_token ops (token_store st) now (td_user_id td)
      "linkedin" = Some lt ->
    TokenStore.is_external_token_expired ops (token_store st) now
      (td_user_id td) "linkedin" = true ->
    et_refresh_token lt = Some rt -> rt <> "" ->
    exists vt,
      snd (validate_access_token ops false now st linkedin token) = Return vt.

(** ** The rest of the provider and of its LinkedIn client *)

(** [exchange_refresh_token] and [register_client] call two more methods
    of the token store; they are taken on their own. *)
Section Provider2.
Context {S : Type}.
(** [token_store.refresh_access_token(refresh_token)]: a new pair of
    access and refresh tokens, or [None]. *)
Variable store_refresh_access_token :
  S -> Z -> string -> S * option (string * string).
(** [token_store.register_client(client_name, redirect_uris)]: the
    credentials [client_id] and [client_secret]. *)
Variable store_register_client :
  S -> string -> list string -> S * (string * string).
Variable proxy_mode : bool.

Definition exchange_refresh_token (now : Z) (st : State S)
    (linkedin_client : LinkedInOAuthClient.t)
    (refresh_token client_id : string) (scope : option string)
  : State S * result OAuthToken :=
  if proxy_mode then
    match LinkedInOAuthClient.refresh_access_token linkedin_client refresh_token with
    | Some new_token =>
        match tr_access_token new_token with
        | Some new_access =>
            (st, Return {| access_token := new_access;
                           token_type := "Bearer";
                           expires_in := default 5184000%Z (tr_expires_in new_token);
                           refresh_token :=
                             match tr_refresh_token new_token with
                             | Some r => Some r
                             | None => Some refresh_token
                             end;
                           token_scope := scope |})
        | None =>
            (st, Raise (TokenError "invalid_grant" "LinkedIn token refresh failed"))
        end
    | None =>
        (st, Raise (TokenError "invalid_grant" "LinkedIn token refresh failed"))
    end
  else
    let '(store, result) :=
      store_refresh_access_token (token_store st) now refresh_token in
    let st' :=
      Build_State (_authorization_code_cache st) store
        (_pending_authorizations st) in
    match result with
    | None => (st', Raise (TokenError "invalid_grant" "Invalid refresh token"))
    | Some (new_access_token, new_refresh_token) =>
        (st', Return {| access_token := new_access_token;
                        token_type := "Bearer";
                        expires_in := 3600%Z;
                        refresh_token := Some new_refresh_token;
                        token_scope := scope |})
    end.

(** [client_metadata], the two keys [register_client] reads with [.get]. *)
Record ClientMetadata : Type := {
  cm_client_name : option string;
  cm_redirect_uris : option (list string);
}.

Record OAuthClientInfo : Type := {
  ci_client_id : string;
  ci_client_secret : string;
  ci_client_name : string;
  ci_redirect_uris : list string;
}.

(** [register_client] returns the client information or raises
    [RegistrationError(error, error_description)]. *)
Inductive Registration : Type :=
| Registered (info : OAuthClientInfo)
| RegistrationError (error error_description : string).

Definition register_client (st : State S) (client_metadata : ClientMetadata)
  : State S * Registration :=
  let client_name := default "Unknown Client" (cm_client_name client_metadata) in
  let redirect_uris := default [] (cm_redirect_uris client_metadata) in
  match redirect_uris with
  | [] =>
      (st, RegistrationError "invalid_redirect_uri"
             "At least one redirect URI required")
  | _ :: _ =>
      let '(store, (client_id, client_secret)) :=
        store_register_client (token_store st) client_name redirect_uris in
      (Build_State (_authorization_code_cache st) store
         (_pending_authorizations st),
       Registered {| ci_client_id := client_id;
                     ci_client_secret := client_secret;
                     ci_client_name := client_name;
                     ci_redirect_uris := redirect_uris |})
  end.

End Provider2.

(** [LinkedInOAuthClient] of [oauth/linkedin_client.py]: the authorization
    URL and [validate_token].  Strings are byte strings (UTF-8), as
    [urllib.parse.urlencode] sees them. *)
Module OAuthClient.

Definition AUTHORIZATION_URL : string :=
  "https://www.linkedin.com/oauth/v2/authorization".

Definition DEFAULT_SCOPES : list string :=
  ["openid"; "profile"; "w_member_social"; "email"].

(** The bytes [urllib.parse.quote] never escapes: letters, digits and
    [_.-~]. *)
Definition always_safe (c : Ascii.ascii) : bool :=
  let n := Ascii.N_of_ascii c in
  ((65 <=? n) && (n <=? 90) || (97 <=? n) && (n <=? 122)
   || (48 <=? n) && (n <=? 57)
   || (n =? 95) || (n =? 46) || (n =? 45) || (n =? 126))%N.

Definition hex_digit (n : N) : Ascii.ascii :=
  Ascii.ascii_of_N (if (n <? 10)%N then 48 + n else 55 + n).

(** [urllib.parse.quote_plus(s, safe='')]: a safe byte is kept, a space
    becomes [+], any other byte becomes [%XX] in upper-case hexadecimal. *)
Fixpoint quote_plus (s : string) : string :=
  match s with
  | EmptyString => EmptyString
  | String c rest =>
      if always_safe c then String c (quote_plus rest)
      else if Ascii.eqb c " "%char then String "+"%char (quote_plus rest)
      else
        let n := Ascii.N_of_ascii c in
        String "%"%char (String (hex_digit (n / 16)) (String (hex_digit (n mod 16))
                                                   (quote_plus rest)))
  end.

(** [urllib.parse.urlencode] of a dictionary, in insertion order. *)
Fixpoint urlencode (params : list (string * string)) : string :=
  match params with
  | [] => ""
  | [(k, v)] => quote_plus k +:+ "=" +:+ quote_plus v
  | (k, v) :: rest => quote_plus k +:+ "=" +:+ quote_plus v +:+ "&" +:+ urlencode rest
  end.

(** [" ".join(scopes)]. *)
Fixpoint join (sep : string) (l : list string) : string :=
  match l with
  | [] => ""
  | [x] => x
  | x :: rest => x +:+ sep +:+ join sep rest
  end.

(** The configuration of the client: [client_id], [client_secret] and
    [redirect_uri] of the LinkedIn application. *)
Record Config : Type := {
  cfg_client_id : string;
  cfg_client_secret : string;
  cfg_redirect_uri : string;
}.

Definition get_authorization_url (self : Config) (state : string)
    (scope : option (list string)) : string :=
  let scopes :=
    match scope with
    | Some (x :: l) => x :: l
    | _ => DEFAULT_SCOPES
    end in
  let params :=
    [("response_type", "code");
     ("client_id", cfg_client_id self);
     ("redirect_uri", cfg_redirect_uri self);
     ("state", state);
     ("scope", join " " scopes)] in
  AUTHORIZATION_URL +:+ "?" +:+ urlencode params.

(** [validate_token]: [True] when [get_user_info] answers, [False] when
    it raises an [httpx.HTTPError]. *)
Definition validate_token (get_user_info : string -> option UserInfo)
    (access_token : string) : bool :=
  match get_user_info access_token with
  | Some _ => true
  | None => false
  end.

(** The client as the provider uses it: [authorize] calls
    [get_authorization_url(state=...)] with the default scopes; the three
    HTTP calls are those of [http]. *)
Definition client (self : Config) (http : LinkedInOAuthClient.t)
  : LinkedInOAuthClient.t :=
  {| LinkedInOAuthClient.get_authorization_url := fun state =>
       get_authorization_url self state None;
     LinkedInOAuthClient.exchange_code_for_token :=
       LinkedInOAuthClient.exchange_code_for_token http;
     LinkedInOAuthClient.refresh_access_token :=
       LinkedInOAuthClient.refresh_access_token http;
     LinkedInOAuthClient.get_user_info :=
       LinkedInOAuthClient.get_user_info http |}.

(** The value of a hexadecimal digit, to read an escape back. *)
Definition hex_value (c : Ascii.ascii) : N :=
  let n := Ascii.N_of_ascii c in
  if (n <? 58)%N then n - 48 else n - 55.

(** Reading [quote_plus] back: [+] is a space, [%XX] is the byte [XX]. *)
Fixpoint unquote_plus (s : string) : string :=
  match s with
  | EmptyString => EmptyString
  | String "%"%char (String h (String l rest)) =>
      String (Ascii.ascii_of_N (16 * hex_value h + hex_value l)) (unquote_plus rest)
  | String "+"%char rest => String " "%char (unquote_plus rest)
  | String c rest => String c (unquote_plus rest)
  end.

(** Every byte of a string satisfies [P]. *)
Fixpoint all_chars (P : ascii -> bool) (s : string) : bool :=
  match s with
  | EmptyString => true
  | String c rest => P c && all_chars P rest
  end.

(** The bytes [quote_plus] writes: the safe ones, [%] and [+]. *)
Definition url_char (c : ascii) : bool :=
  always_safe c || Ascii.eqb c "%" || Ascii.eqb c "+".

End OAuthClient.

(** [PassthroughOAuthProvider.validate_access_token] of [async_server.py]
    ([OAUTH_PASSTHROUGH_MODE]).  [hash] is Python's string hash, any
    integer; [%] with a positive modulus is [Z.modulo]. *)
Section Passthrough.
Variable hash : string -> Z.

Definition passthrough_user_id (token : string) : string :=
  "passthrough_" +:+ NilEmpty.string_of_uint (N.to_uint (Z.to_N (hash token mod 10000))).

Definition passthrough_validate_access_token (token : string) : ValidatedToken :=
  {| vt_user_id := passthrough_user_id token;
     vt_external_access_token := token;
     vt_token_data := None |}.

End Passthrough.

(** A token of [n] bytes. *)
Fixpoint token_of_length (n : nat) : string :=
  match n with
  | O => EmptyString
  | Datatypes.S n => String "a" (token_of_length n)
  end.

(** An external token that was just linked is the one that is read. *)
Definition link_then_get {S} (ops : TokenStore.t S) : Prop :=
  forall s now user_id access refresh expires provider now',
    exists token,
      TokenStore.get_external_token ops
        (TokenStore.link_external_token ops s now user_id access refresh
           expires provider) now' user_id provider = Some token
      /\ et_access_token token = access
      /\ et_refresh_token token = refresh.

(** Creating an authorization code does not touch the external tokens. *)
Definition code_creation_keeps_external_tokens {S} (ops : TokenStore.t S)
  : Prop :=
  forall s now user_id client_id redirect_uri scope challenge method now'
         user_id' provider,
    TokenStore.get_external_token ops
      (fst (TokenStore.create_authorization_code ops s now user_id client_id
              redirect_uri scope challenge method)) now' user_id' provider
    = TokenStore.get_external_token ops s now' user_id' provider.

(** No pending authorization names a user. *)
Definition no_user_ids (pending : gmap string PendingAuthorization) : Prop :=
  forall state entry, pending !! state = Some entry -> p_user_id entry = None.

(** ** Properties *)

Section Facts.
Context {S : Type}.
Variable ops : TokenStore.t S.

(** *** The cache look-up of [exchange_authorization_code] *)

Lemma check_code_cache_absent now (cache : gmap string CodeData)
    code cid ruri v :
  cache !! code = None ->
  check_code_cache now cache code cid ruri v = Return (cache, None).
Proof. intros H. unfold check_code_cache. by rewrite H. Qed.

Lemma check_code_cache_hit now (cache : gmap string CodeData) code cd v :
  cache !! code = Some cd ->
  (now - cd_created_at cd < 600)%Z ->
  (truthy (cd_code_challenge cd) && truthy (cd_code_challenge_method cd) = true ->
   truthy v = true) ->
  check_code_cache now cache code (cd_client_id cd) (cd_redirect_uri cd) v
  = Return (delete code cache, Some cd).
Proof.
  intros Hc Hage Hv. unfold check_code_cache. rewrite Hc.
  assert ((now - cd_created_at cd <? 600)%Z = true) as -> by lia.
  rewrite !bool_decide_eq_true_2 by done. simpl.
  destruct (truthy (cd_code_challenge cd) && truthy (cd_code_challenge_method cd));
    [|done].
  by rewrite Hv.
Qed.

Lemma check_code_cache_mismatch now (cache : gmap string CodeData)
    code cd cid ruri v :
  cache !! code = Some cd ->
  (now - cd_created_at cd < 600)%Z ->
  cd_client_id cd <> cid \/ cd_redirect_uri cd <> ruri ->
  check_code_cache now cache code cid ruri v = Return (cache, None).
Proof.
  intros Hc Hage Hne. unfold check_code_cache. rewrite Hc.
  assert ((now - cd_created_at cd <? 600)%Z = true) as -> by lia.
  destruct Hne as [Hne|Hne].
  - by rewrite (bool_decide_eq_false_2 _ Hne).
  - rewrite (bool_decide_eq_false_2 _ Hne). by rewrite andb_false_r.
Qed.

(** Whatever the look-up does, it only ever removes [code]. *)
Lemma check_code_cache_result now (cache : gmap string CodeData)
    code cid ruri v cache' cached :
  check_code_cache now cache code cid ruri v = Return (cache', cached) ->
  (cache' = cache \/ cache' = delete code cache)
  /\ (forall cd, cached = Some cd ->
        cache !! code = Some cd /\ cache' = delete code cache
        /\ (now - cd_created_at cd < 600)%Z
        /\ cd_client_id cd = cid /\ cd_redirect_uri cd = ruri).
Proof.
  unfold check_code_cache. intros H.
  destruct (cache !! code) as [cd0|] eqn:Hc;
    [|simplify_eq; split; [by left|done]].
  destruct (now - cd_created_at cd0 <? 600)%Z eqn:Hage;
    [|simplify_eq; split; [by right|done]].
  destruct (bool_decide (cd_client_id cd0 = cid)) eqn:Hcid; simpl in H;
    [|simplify_eq; split; [by left|done]].
  destruct (bool_decide (cd_redirect_uri cd0 = ruri)) eqn:Hruri; simpl in H;
    [|simplify_eq; split; [by left|done]].
  destruct (truthy (cd_code_challenge cd0) && truthy (cd_code_challenge_method cd0)
            && negb (truthy v)); [done|].
  simplify_eq. split; [by right|]. intros cd [= <-].
  apply bool_decide_eq_true_1 in Hcid, Hruri. repeat split; try done. lia.
Qed.

End Facts.

Section Callback.
Context {S : Type}.
Variable ops : TokenStore.t S.

(** [handle_external_callback] raises only before its first write. *)
Lemma handle_external_callback_raise now (st : State S) linkedin code state st' e :
  handle_external_callback ops now st linkedin code state = (st', Raise e) ->
  st' = st
  /\ (_pending_authorizations st !! state = None
      \/ LinkedInOAuthClient.exchange_code_for_token linkedin code = None
      \/ ((LinkedInOAuthClient.exchange_code_for_token linkedin code
             ≫= tr_access_token)
            ≫= LinkedInOAuthClient.get_user_info linkedin) ≫= sub = None).
Proof.
  unfold handle_external_callback. intros H.
  destruct (_pending_authorizations st !! state); [|simplify_eq; auto].
  destruct (LinkedInOAuthClient.exchange_code_for_token linkedin code) as [tok|];
    [|simplify_eq; auto].
  simpl. destruct (tr_access_token tok) as [a|]; [|simplify_eq; auto].
  simpl. destruct (LinkedInOAuthClient.get_user_info linkedin a ≫= sub);
    [|simplify_eq; auto].
  by destruct (TokenStore.create_authorization_code _ _ _ _ _ _ _ _ _).
Qed.

(** C7. Every failing [handle_external_callback] leaves the state as it
    was: the cache, the pending authorizations and the token store, so
    no external token is written.  An unknown state fails with
    [InvalidState]; a failed code exchange and a failed identity
    look-up fail before [link_external_token] is reached. *)
Theorem handle_external_callback_failure_frame now (st : State S)
    linkedin code state :
  (_pending_authorizations st !! state = None ->
   handle_external_callback ops now st linkedin code state
   = (st, Raise InvalidState))
  /\ (forall st' e,
        handle_external_callback ops now st linkedin code state = (st', Raise e) ->
        st' = st)
  /\ (forall pending,
        _pending_authorizations st !! state = Some pending ->
        LinkedInOAuthClient.exchange_code_for_token linkedin code = None ->
        handle_external_callback ops now st linkedin code state
        = (st, Raise (ValueError "LinkedIn token exchange failed")))
  /\ (forall pending linkedin_token,
        _pending_authorizations st !! state = Some pending ->
        LinkedInOAuthClient.exchange_code_for_token linkedin code
        = Some linkedin_token ->
        (tr_access_token linkedin_token
           ≫= LinkedInOAuthClient.get_user_info linkedin) ≫= sub = None ->
        handle_external_callback ops now st linkedin code state
        = (st, Raise (ValueError "Failed to get LinkedIn user info"))).
Proof.
  repeat split.
  - intros H. unfold handle_external_callback. by rewrite H.
  - intros st' e H. by apply handle_external_callback_raise in H as [-> _].
  - intros pending Hp Hx. unfold handle_external_callback. by rewrite Hp, Hx.
  - intros pending tok Hp Hx Hu. unfold handle_external_callback.
    rewrite Hp, Hx. destruct (tr_access_token tok) as [a|]; [|done].
    simpl in Hu. by rewrite Hu.
Qed.

End Callback.

Lemma handle_external_callback_failure_frame_witness :
  handle_external_callback Example.ops 5 Example.st0 Example.linkedin
    "badcode" "unknown-state" = (Example.st0, Raise InvalidState)
  /\ handle_external_callback Example.ops 5 (Example.authorized None None)
       Example.linkedin "badcode" "ls-1"
     = (Example.authorized None None,
        Raise (ValueError "LinkedIn token exchange failed")).
Proof.
  split.
  - apply (handle_external_callback_failure_frame Example.ops 5 Example.st0
             Example.linkedin "badcode" "unknown-state").
    reflexivity.
  - eapply (handle_external_callback_failure_frame Example.ops 5
              (Example.authorized None None) Example.linkedin "badcode" "ls-1").
    + vm_compute. reflexivity.
    + reflexivity.
Defined.

Section Authorize.
Context {S : Type}.
Variable ops : TokenStore.t S.

Lemma authorize_linked now (st : State S) linkedin params linkedin_state user_id :
  TokenStore.validate_client ops (token_store st) (client_id params)
    (redirect_uri params) = true ->
  linked ops now st params user_id ->
  authorize ops now st linkedin params linkedin_state
  = (let created :=
       TokenStore.create_authorization_code ops (token_store st) now user_id
         (client_id params) (redirect_uri params) (scope params)
         (code_challenge params) (code_challenge_method params) in
     (Build_State (_authorization_code_cache st) (fst created)
        (delete (default "" (state params)) (_pending_authorizations st)),
      Return (CodeIssued (snd created) (default "" (state params))))).
Proof.
  intros Hv ((p & Hp & Hu) & Hne & [lt Hlt] & Hexp).
  unfold authorize. rewrite Hv, Hp. simpl. rewrite Hu.
  rewrite (bool_decide_eq_false_2 _ Hne). simpl. rewrite Hlt, Hexp. simpl.
  by destruct (TokenStore.create_authorization_code _ _ _ _ _ _ _ _ _).
Qed.

Lemma authorize_not_linked now (st : State S) linkedin params linkedin_state :
  TokenStore.validate_client ops (token_store st) (client_id params)
    (redirect_uri params) = true ->
  (forall user_id, ~ linked ops now st params user_id) ->
  authorize ops now st linkedin params linkedin_state
  = (Build_State (_authorization_code_cache st) (token_store st)
       (<[linkedin_state := pending_of params]> (_pending_authorizations st)),
     Return (ExternalRedirect
               (LinkedInOAuthClient.get_authorization_url linkedin linkedin_state)
               linkedin_state)).
Proof.
  intros Hv Hno. unfold authorize. rewrite Hv. simpl.
  destruct (_pending_authorizations st !! default "" (state params))
    as [p|] eqn:Hp; [|done].
  simpl. destruct (p_user_id p) as [uid|] eqn:Hu; [|done].
  destruct (bool_decide (uid = "")) eqn:Hne; [done|]. simpl.
  destruct (TokenStore.get_external_token ops (token_store st) now uid "linkedin")
    as [lt|] eqn:Hlt; [|done].
  destruct (TokenStore.is_external_token_expired ops (token_store st) now uid
              "linkedin") eqn:Hexp; [done|].
  exfalso. apply (Hno uid). apply bool_decide_eq_false_1 in Hne.
  repeat split; eauto.
Qed.

(** When [authorize] answers with a redirect, it has stored the pending
    authorization of its parameters under the state it returns and
    nothing else has changed. *)
Lemma authorize_redirect now (st : State S) linkedin params linkedin_state
    st1 url state' :
  authorize ops now st linkedin params linkedin_state
  = (st1, Return (ExternalRedirect url state')) ->
  state' = linkedin_state
  /\ st1 = Build_State (_authorization_code_cache st) (token_store st)
             (<[linkedin_state := pending_of params]>
                (_pending_authorizations st)).
Proof.
  unfold authorize. intros H.
  repeat (case_match; simplify_eq; try done).
Qed.

(** C4. For a validated client, when the user resolved from the state
    parameter has a linked external token that is not expired,
    [authorize] mints an authorization code in the token store and
    returns [{code, state}]: no pending authorization is created (the
    one under the state is removed).  Otherwise it stores one pending
    authorization under the generated state, changes nothing else and
    returns LinkedIn's authorization URL for that state; when the
    generated state is fresh the pending authorizations grow by exactly
    one. *)
Theorem authorize_code_or_redirect now (st : State S) linkedin params
    linkedin_state :
  TokenStore.validate_client ops (token_store st) (client_id params)
    (redirect_uri params) = true ->
  (forall user_id,
      linked ops now st params user_id ->
      exists store' code,
        TokenStore.create_authorization_code ops (token_store st) now user_id
          (client_id params) (redirect_uri params) (scope params)
          (code_challenge params) (code_challenge_method params)
        = (store', code)
        /\ authorize ops now st linkedin params linkedin_state
           = (Build_State (_authorization_code_cache st) store'
                (delete (default "" (state params))
                   (_pending_authorizations st)),
              Return (CodeIssued code (default "" (state params)))))
  /\ ((forall user_id, ~ linked ops now st params user_id) ->
      authorize ops now st linkedin params linkedin_state
      = (Build_State (_authorization_code_cache st) (token_store st)
           (<[linkedin_state := pending_of params]>
              (_pending_authorizations st)),
         Return (ExternalRedirect
                   (LinkedInOAuthClient.get_authorization_url linkedin
                      linkedin_state)
                   linkedin_state))
      /\ (_pending_authorizations st !! linkedin_state = None ->
          size (_pending_authorizations
                  (fst (authorize ops now st linkedin params linkedin_state)))
          = Datatypes.S (size (_pending_authorizations st)))).
Proof.
  intros Hv. split.
  - intros uid Hl. rewrite (authorize_linked _ _ _ _ _ uid Hv Hl).
    destruct (TokenStore.create_authorization_code _ _ _ _ _ _ _ _ _)
      as [store' code].
    by exists store', code.
  - intros Hno. rewrite (authorize_not_linked _ _ _ _ _ Hv Hno).
    split; [done|]. intros Hfresh. simpl.
    by apply map_size_insert_None.
Qed.

End Authorize.

Lemma authorize_code_or_redirect_witness :
  snd (authorize Example.ops 10 Example.st_linked Example.linkedin
         (Example.params None None) "ls-2")
  = Return (CodeIssued "code-1" "s1")
  /\ snd (authorize Example.ops 0 Example.st0 Example.linkedin
            (Example.params None None) "ls-1")
     = Return (ExternalRedirect
                 "https://www.linkedin.com/oauth/v2/authorization?state=ls-1"
                 "ls-1")
  /\ size (_pending_authorizations
             (fst (authorize Example.ops 0 Example.st0 Example.linkedin
                     (Example.params None None) "ls-1"))) = 1.
Proof.
  split.
  - destruct (authorize_code_or_redirect Example.ops 10 Example.st_linked
                Example.linkedin (Example.params None None) "ls-2" eq_refl)
      as [Hcode _].
    destruct (Hcode "user-1") as (store' & code & Hcreate & ->).
    + repeat split.
      * eexists. split; vm_compute; reflexivity.
      * discriminate.
      * vm_compute. eauto.
    + vm_compute in Hcreate. by injection Hcreate as _ <-.
  - destruct (authorize_code_or_redirect Example.ops 0 Example.st0
                Example.linkedin (Example.params None None) "ls-1" eq_refl)
      as [_ Hredirect].
    destruct Hredirect as [-> Hsize].
    + intros user_id ((pending & Hp & _) & _). vm_compute in Hp. discriminate.
    + split; [reflexivity|]. apply Hsize. reflexivity.
Defined.

(** C2, as stated, fails: a pending authorization created at time 0 is
    honoured a million seconds later. *)
Lemma pending_entries_do_not_expire : ~ pending_entries_expire 600.
Proof.
  intros Hclaim.
  assert (authorize Example.ops 0 Example.st0 Example.linkedin
            (Example.params None None) "ls-1"
          = (Example.authorized None None,
             Return (ExternalRedirect
                       "https://www.linkedin.com/oauth/v2/authorization?state=ls-1"
                       "ls-1"))) as Hauth
    by (vm_compute; reflexivity).
  specialize (Hclaim _ _ 0%Z 1000000%Z _ _ Example.linkedin _ _ _ _ "li-code" Hauth).
  vm_compute in Hclaim. specialize (Hclaim eq_refl). discriminate.
Qed.

Section PendingLifetime.
Context {S : Type}.
Variable ops : TokenStore.t S.

(** Whether [handle_external_callback] returns depends on the pending
    authorizations and on LinkedIn's answers, not on the clock. *)
Lemma handle_external_callback_clock now now' (st : State S) linkedin code state :
  is_return (snd (handle_external_callback ops now st linkedin code state))
  = is_return (snd (handle_external_callback ops now' st linkedin code state)).
Proof.
  unfold handle_external_callback.
  repeat (case_match; simplify_eq; try done).
Qed.

(** C2, amended. [handle_external_callback] fails with [InvalidState]
    exactly when no pending authorization is stored under the state.
    A pending authorization has no creation time and no lifetime: one
    that [authorize] stored is never refused as an invalid state, and
    whether the callback returns does not depend on the time of the
    call. *)
Theorem pending_authorization_has_no_ttl now (st : State S) linkedin code state :
  (snd (handle_external_callback ops now st linkedin code state)
   = Raise InvalidState
   <-> _pending_authorizations st !! state = None)
  /\ (forall t0 st0 linkedin0 params url,
        authorize ops t0 st0 linkedin0 params state
        = (st, Return (ExternalRedirect url state)) ->
        snd (handle_external_callback ops now st linkedin code state)
        <> Raise InvalidState)
  /\ (forall now',
        is_return (snd (handle_external_callback ops now st linkedin code state))
        = is_return (snd (handle_external_callback ops now' st linkedin code
                            state))).
Proof.
  assert (snd (handle_external_callback ops now st linkedin code state)
          = Raise InvalidState
          <-> _pending_authorizations st !! state = None) as Hiff.
  { split.
    - unfold handle_external_callback.
      repeat (case_match; simplify_eq; try done).
    - intros H. unfold handle_external_callback. by rewrite H. }
  split; [exact Hiff|]. split.
  - intros t0 st0 linkedin0 params url Hauth Hraise.
    apply authorize_redirect in Hauth as [_ ->].
    apply Hiff in Hraise. simpl in Hraise.
    by rewrite lookup_insert_eq in Hraise.
  - intros now'. apply handle_external_callback_clock.
Qed.

End PendingLifetime.

Lemma pending_authorization_has_no_ttl_witness :
  snd (handle_external_callback Example.ops 1000000
         (Example.authorized None None) Example.linkedin "li-code" "ls-1")
  <> Raise InvalidState.
Proof.
  destruct (pending_authorization_has_no_ttl Example.ops 1000000
              (Example.authorized None None) Example.linkedin "li-code" "ls-1")
    as (_ & Hstored & _).
  apply (Hstored 0%Z Example.st0 Example.linkedin (Example.params None None)
           "https://www.linkedin.com/oauth/v2/authorization?state=ls-1").
  vm_compute. reflexivity.
Defined.

Section Exchange.
Context {S : Type}.
Variable ops : TokenStore.t S.

(** The exchange of a code that the cache accepts: the token store is
    not asked to validate the code. *)
Lemma exchange_cached proxy_mode now (st : State S) code cd v :
  _authorization_code_cache st !! code = Some cd ->
  (now - cd_created_at cd < 600)%Z ->
  (truthy (cd_code_challenge cd) && truthy (cd_code_challenge_method cd) = true ->
   truthy v = true) ->
  exchange_authorization_code ops proxy_mode now st code (cd_client_id cd)
    (cd_redirect_uri cd) v
  = if proxy_mode then
      (Build_State (delete code (_authorization_code_cache st)) (token_store st)
         (_pending_authorizations st),
       match TokenStore.get_external_token ops (token_store st) now
               (cd_user_id cd) "linkedin" with
       | Some lt =>
           Return {| access_token := et_access_token lt;
                     token_type := "Bearer";
                     expires_in := default 5184000%Z (et_expires_in lt);
                     refresh_token := et_refresh_token lt;
                     token_scope := cd_scope cd |}
       | None => Raise (TokenError "invalid_grant" "LinkedIn token not found")
       end)
    else
      let created :=
        TokenStore.create_access_token ops (token_store st) now (cd_user_id cd)
          (cd_client_id cd) (cd_scope cd) in
      (Build_State (delete code (_authorization_code_cache st)) (fst created)
         (_pending_authorizations st),
       Return {| access_token := fst (snd created);
                 token_type := "Bearer";
                 expires_in := 3600%Z;
                 refresh_token := Some (snd (snd created));
                 token_scope := cd_scope cd |}).
Proof.
  intros Hc Hage Hv. unfold exchange_authorization_code.
  rewrite (check_code_cache_hit _ _ _ _ _ Hc Hage Hv).
  destruct proxy_mode.
  - by destruct (TokenStore.get_external_token _ _ _ _ _).
  - by destruct (TokenStore.create_access_token _ _ _ _ _ _) as [? [? ?]].
Qed.

(** The exchange of a code that the cache does not hold, or holds for
    another client or redirect URI: the cache is left alone and the
    token store decides. *)
Lemma exchange_fallback proxy_mode now (st : State S) code cid ruri v :
  check_code_cache now (_authorization_code_cache st) code cid ruri v
  = Return (_authorization_code_cache st, None) ->
  exchange_authorization_code ops proxy_mode now st code cid ruri v
  = let validated :=
      TokenStore.validate_authorization_code ops (token_store st) now code cid
        ruri v in
    match snd validated with
    | None =>
        (Build_State (_authorization_code_cache st) (fst validated)
           (_pending_authorizations st),
         Raise (TokenError "invalid_grant"
                  "Invalid or expired authorization code"))
    | Some cd =>
        if proxy_mode then
          (Build_State (_authorization_code_cache st) (fst validated)
             (_pending_authorizations st),
           match TokenStore.get_external_token ops (fst validated) now
                   (cd_user_id cd) "linkedin" with
           | Some lt =>
               Return {| access_token := et_access_token lt;
                         token_type := "Bearer";
                         expires_in := default 5184000%Z (et_expires_in lt);
                         refresh_token := et_refresh_token lt;
                         token_scope := cd_scope cd |}
           | None => Raise (TokenError "invalid_grant" "LinkedIn token not found")
           end)
        else
          let created :=
            TokenStore.create_access_token ops (fst validated) now
              (cd_user_id cd) cid (cd_scope cd) in
          (Build_State (_authorization_code_cache st) (fst created)
             (_pending_authorizations st),
           Return {| access_token := fst (snd created);
                     token_type := "Bearer";
                     expires_in := 3600%Z;
                     refresh_token := Some (snd (snd created));
                     token_scope := cd_scope cd |})
    end.
Proof.
  intros Hc. unfold exchange_authorization_code. rewrite Hc.
  destruct (TokenStore.validate_authorization_code _ _ _ _ _ _ _)
    as [store [cd|]]; simpl; [|done].
  destruct proxy_mode.
  - by destruct (TokenStore.get_external_token _ _ _ _ _).
  - by destruct (TokenStore.create_access_token _ _ _ _ _ _) as [? [? ?]].
Qed.

(** The data behind a returned token: the cached entry, or the token
    store's answer. *)
Lemma exchange_return proxy_mode now (st : State S) code cid ruri v st' token :
  exchange_authorization_code ops proxy_mode now st code cid ruri v
  = (st', Return token) ->
  exists cd,
    token_scope token = cd_scope cd
    /\ ((_authorization_code_cache st !! code = Some cd
         /\ (now - cd_created_at cd < 600)%Z
         /\ cd_client_id cd = cid /\ cd_redirect_uri cd = ruri
         /\ _authorization_code_cache st'
            = delete code (_authorization_code_cache st)
         /\ (proxy_mode = true -> token_store st' = token_store st))
        \/ (exists store,
              TokenStore.validate_authorization_code ops (token_store st) now
                code cid ruri v = (store, Some cd)
              /\ (proxy_mode = true -> token_store st' = store)))
    /\ (proxy_mode = true ->
        exists lt,
          TokenStore.get_external_token ops (token_store st') now
            (cd_user_id cd) "linkedin" = Some lt
          /\ access_token token = et_access_token lt).
Proof.
  unfold exchange_authorization_code. intros H.
  destruct (check_code_cache _ _ _ _ _ _) as [[cache cached]|] eqn:Hc; [|done].
  apply check_code_cache_result in Hc as [_ Hc].
  destruct cached as [cd|].
  - destruct (Hc cd eq_refl) as (Hl & -> & Hage & Hcid & Hruri).
    exists cd. destruct proxy_mode.
    + destruct (TokenStore.get_external_token _ _ _ _ _) as [lt|] eqn:Hlt;
        simplify_eq. simpl. split; [done|]. split; [left; done|].
      intros _. by exists lt.
    + destruct (TokenStore.create_access_token _ _ _ _ _ _) as [? [? ?]].
      simplify_eq. simpl. split; [done|]. split; [left; done|]. done.
  - destruct (TokenStore.validate_authorization_code _ _ _ _ _ _ _)
      as [store [cd|]] eqn:Hv; [|done].
    exists cd. destruct proxy_mode.
    + destruct (TokenStore.get_external_token _ _ _ _ _) as [lt|] eqn:Hlt;
        simplify_eq. simpl. split; [done|]. split; [right; by exists store|].
      intros _. by exists lt.
    + destruct (TokenStore.create_access_token _ _ _ _ _ _) as [? [? ?]].
      simplify_eq. simpl. split; [done|]. split; [right; by exists store|]. done.
Qed.

End Exchange.

Section RoundTrip.
Context {S : Type}.
Variable ops : TokenStore.t S.

(** What a returning [handle_external_callback] has done: linked the
    external token of the resolved user, created the code in the token
    store, recorded it in the cache and consumed the pending
    authorization. *)
Lemma handle_external_callback_return now (st : State S) linkedin code state
    st' cb :
  handle_external_callback ops now st linkedin code state = (st', Return cb) ->
  exists pending linkedin_token linkedin_access user_id store2,
    _pending_authorizations st !! state = Some pending
    /\ LinkedInOAuthClient.exchange_code_for_token linkedin code
       = Some linkedin_token
    /\ tr_access_token linkedin_token = Some linkedin_access
    /\ LinkedInOAuthClient.get_user_info linkedin linkedin_access ≫= sub
       = Some user_id
    /\ TokenStore.create_authorization_code ops
         (TokenStore.link_external_token ops (token_store st) now user_id
            linkedin_access (tr_refresh_token linkedin_token)
            (default 5184000%Z (tr_expires_in linkedin_token)) "linkedin")
         now user_id (mcp_client_id pending) (mcp_redirect_uri pending)
         (mcp_scope pending) (mcp_code_challenge pending)
         (mcp_code_challenge_method pending)
       = (store2, cb_code cb)
    /\ st' = Build_State
               (<[cb_code cb :=
                    {| cd_user_id := user_id;
                       cd_client_id := mcp_client_id pending;
                       cd_redirect_uri := mcp_redirect_uri pending;
                       cd_scope := mcp_scope pending;
                       cd_code_challenge := mcp_code_challenge pending;
                       cd_code_challenge_method :=
                         mcp_code_challenge_method pending;
                       cd_created_at := now |}]>
                  (_authorization_code_cache st))
               store2 (delete state (_pending_authorizations st))
    /\ cb_state cb = mcp_state pending
    /\ cb_redirect_uri cb = mcp_redirect_uri pending.
Proof.
  unfold handle_external_callback. intros H.
  destruct (_pending_authorizations st !! state) as [pending|]; [|done].
  destruct (LinkedInOAuthClient.exchange_code_for_token linkedin code)
    as [tok|]; [|done].
  destruct (tr_access_token tok) as [a|] eqn:Ha; [|done].
  destruct (LinkedInOAuthClient.get_user_info linkedin a ≫= sub)
    as [uid|] eqn:Hu; [|done].
  destruct (TokenStore.create_authorization_code _ _ _ _ _ _ _ _ _)
    as [store2 mcp_code] eqn:Hcreate.
  simplify_eq. simpl. by exists pending, tok, a, uid, store2.
Qed.

(** C5. Round trip: when [authorize] redirects to LinkedIn, the callback
    on the returned state succeeds and the code it returns is exchanged
    for a token, the token's scope is the scope that was passed to
    [authorize], in either mode.  The token store is any store in which
    a validated code carries the scope it was created with. *)
Theorem round_trip_scope proxy_mode t0 t1 t2 (st : State S)
    linkedin0 linkedin1 params linkedin_state url st1 linkedin_code st2 cb
    client_id' redirect_uri' code_verifier st3 token :
  code_keeps_scope ops ->
  authorize ops t0 st linkedin0 params linkedin_state
  = (st1, Return (ExternalRedirect url linkedin_state)) ->
  handle_external_callback ops t1 st1 linkedin1 linkedin_code linkedin_state
  = (st2, Return cb) ->
  exchange_authorization_code ops proxy_mode t2 st2 (cb_code cb) client_id'
    redirect_uri' code_verifier = (st3, Return token) ->
  token_scope token = scope params.
Proof.
  intros Hlaw Hauth Hcb Hex.
  apply authorize_redirect in Hauth as [_ ->].
  apply handle_external_callback_return in Hcb
    as (pending & tok & a & uid & store2 & Hp & _ & _ & _ & Hcreate & -> & _).
  simpl in Hp. rewrite lookup_insert_eq in Hp. injection Hp as <-.
  apply exchange_return in Hex as (cd & -> & [Hcached|Hstore] & _).
  - destruct Hcached as (Hl & _). simpl in Hl.
    rewrite lookup_insert_eq in Hl. by injection Hl as <-.
  - destruct Hstore as (store & Hv & _). simpl in Hv, Hcreate.
    exact (Hlaw _ _ _ _ _ _ _ _ _ _ _ _ _ _ _ _ Hcreate Hv).
Qed.

End RoundTrip.

(** The in-memory store obeys the three contracts. *)
Lemma mem_store_code_keeps_scope pkce : code_keeps_scope (MemStore.ops pkce).
Proof.
  intros s now uid cid ruri sc ch m s1 code now' cid' ruri' v s2 cd Hc Hv.
  simpl in Hc, Hv. unfold MemStore.create_authorization_code in Hc.
  injection Hc as <- <-.
  unfold MemStore.validate_authorization_code in Hv. simpl in Hv.
  rewrite lookup_insert_eq in Hv.
  case_match; by simplify_eq.
Qed.

Lemma mem_store_code_validation_keeps_tokens pkce :
  code_validation_keeps_tokens (MemStore.ops pkce).
Proof.
  intros s now code cid ruri v now' token. simpl.
  unfold MemStore.validate_authorization_code.
  by repeat case_match.
Qed.

Lemma mem_store_update_then_get pkce : update_then_get (MemStore.ops pkce).
Proof.
  intros s now uid access refresh expires provider. simpl.
  unfold MemStore.get_external_token, MemStore.link_external_token. simpl.
  rewrite lookup_insert_eq. by eexists.
Qed.

Lemma round_trip_scope_witness :
  exists st3 token,
    exchange_authorization_code Example.ops false 300
      (Example.called_back None None 100) "code-0" "client-1" Example.cb_uri None
    = (st3, Return token)
    /\ token_scope token = Some "profile".
Proof.
  destruct (exchange_authorization_code Example.ops false 300
              (Example.called_back None None 100) "code-0" "client-1"
              Example.cb_uri None) as [st3 [token|e]] eqn:Hex.
  - exists st3, token. split; [reflexivity|].
    apply (round_trip_scope Example.ops false 0 100 300 Example.st0
             Example.linkedin Example.linkedin (Example.params None None) "ls-1"
             "https://www.linkedin.com/oauth/v2/authorization?state=ls-1"
             (Example.authorized None None) "li-code"
             (Example.called_back None None 100)
             {| cb_code := "code-0"; cb_state := "s1";
                cb_redirect_uri := Example.cb_uri |}
             "client-1" Example.cb_uri None st3 token).
    + apply mem_store_code_keeps_scope.
    + vm_compute. reflexivity.
    + vm_compute. reflexivity.
    + exact Hex.
  - vm_compute in Hex. discriminate.
Defined.

Section ProxyExchange.
Context {S : Type}.
Variable ops : TokenStore.t S.

(** C6. In proxy mode a successful [exchange_authorization_code] never
    calls [create_access_token]: the token store is the one it was, or
    the one [validate_authorization_code] left, and (validating a code
    leaving the access tokens alone) no access token is valid afterwards
    that was not valid before.  The access token returned is the access
    token of the external token linked to the user of the code. *)
Theorem proxy_exchange_returns_external_token now (st : State S) code
    client_id' redirect_uri' code_verifier st' token :
  code_validation_keeps_tokens ops ->
  exchange_authorization_code ops true now st code client_id' redirect_uri'
    code_verifier = (st', Return token) ->
  (token_store st' = token_store st
   \/ token_store st'
      = fst (TokenStore.validate_authorization_code ops (token_store st) now
               code client_id' redirect_uri' code_verifier))
  /\ (forall now' t,
        TokenStore.validate_access_token ops (token_store st') now' t
        = TokenStore.validate_access_token ops (token_store st) now' t)
  /\ (exists cd linkedin_token,
        (_authorization_code_cache st !! code = Some cd
         \/ snd (TokenStore.validate_authorization_code ops (token_store st)
                   now code client_id' redirect_uri' code_verifier) = Some cd)
        /\ TokenStore.get_external_token ops (token_store st') now
             (cd_user_id cd) "linkedin" = Some linkedin_token
        /\ access_token token = et_access_token linkedin_token).
Proof.
  intros Hlaw Hex.
  apply exchange_return in Hex as (cd & _ & Hdata & Hproxy).
  destruct (Hproxy eq_refl) as (lt & Hlt & Htok).
  destruct Hdata as [(Hl & _ & _ & _ & _ & Hstore)|(store & Hv & Hstore)].
  - rewrite (Hstore eq_refl). split; [by left|]. split; [done|].
    exists cd, lt. rewrite <- (Hstore eq_refl). auto.
  - assert (token_store st'
            = fst (TokenStore.validate_authorization_code ops (token_store st)
                     now code client_id' redirect_uri' code_verifier)) as Hst'
      by (by rewrite Hv, (Hstore eq_refl)).
    split; [by right|]. split.
    + intros now' t. rewrite Hst'. apply Hlaw.
    + exists cd, lt. rewrite Hv. auto.
Qed.

(** C10. In proxy mode, a code that the cache accepts but whose user
    has no linked external token is refused with [invalid_grant], and
    the refusal has already removed the code from the cache.  Trying
    the same code again is refused with [invalid_grant] too, as long as
    the token store does not itself vouch for the code on behalf of a
    user with a linked token. *)
Theorem proxy_exchange_without_external_token now (st : State S) code cd
    code_verifier :
  _authorization_code_cache st !! code = Some cd ->
  (now - cd_created_at cd < 600)%Z ->
  (truthy (cd_code_challenge cd) && truthy (cd_code_challenge_method cd) = true ->
   truthy code_verifier = true) ->
  TokenStore.get_external_token ops (token_store st) now (cd_user_id cd)
    "linkedin" = None ->
  exists st1,
    exchange_authorization_code ops true now st code (cd_client_id cd)
      (cd_redirect_uri cd) code_verifier
    = (st1, Raise (TokenError "invalid_grant" "LinkedIn token not found"))
    /\ _authorization_code_cache st1 !! code = None
    /\ token_store st1 = token_store st
    /\ forall now' code_verifier',
        (forall store cd',
            TokenStore.validate_authorization_code ops (token_store st) now'
              code (cd_client_id cd) (cd_redirect_uri cd) code_verifier'
            = (store, Some cd') ->
            TokenStore.get_external_token ops store now' (cd_user_id cd')
              "linkedin" = None) ->
        exists st2 e,
          exchange_authorization_code ops true now' st1 code (cd_client_id cd)
            (cd_redirect_uri cd) code_verifier' = (st2, Raise e)
          /\ is_invalid_grant e.
Proof.
  intros Hc Hage Hv Hlt.
  rewrite (exchange_cached ops true _ _ _ _ _ Hc Hage Hv). rewrite Hlt.
  eexists. split; [reflexivity|]. simpl.
  split; [apply lookup_delete_eq|]. split; [done|].
  intros now' v' Hstore.
  rewrite exchange_fallback
    by (simpl; apply check_code_cache_absent, lookup_delete_eq).
  simpl.
  destruct (TokenStore.validate_authorization_code ops (token_store st) now'
              code (cd_client_id cd) (cd_redirect_uri cd) v')
    as [store [cd'|]] eqn:Hval; simpl.
  - rewrite (Hstore _ _ eq_refl). do 2 eexists. split; [reflexivity|].
    by eexists.
  - do 2 eexists. split; [reflexivity|]. by eexists.
Qed.

(** C9. An exchange that presents a cached, unexpired code with another
    client or redirect URI is refused with [invalid_grant] (the token
    store refusing it as well) and leaves the cache as it was: the same
    code, presented within its lifetime with the recorded client and
    redirect URI (and a verifier if a challenge was recorded), is then
    exchanged for a token of the recorded scope; in proxy mode provided
    the user of the code has a linked external token. *)
Theorem mismatched_exchange_keeps_code proxy_mode now (st : State S) code cd
    client_id' redirect_uri' code_verifier :
  _authorization_code_cache st !! code = Some cd ->
  (now - cd_created_at cd < 600)%Z ->
  cd_client_id cd <> client_id' \/ cd_redirect_uri cd <> redirect_uri' ->
  snd (TokenStore.validate_authorization_code ops (token_store st) now code
         client_id' redirect_uri' code_verifier) = None ->
  exists st1,
    exchange_authorization_code ops proxy_mode now st code client_id'
      redirect_uri' code_verifier
    = (st1, Raise (TokenError "invalid_grant"
                     "Invalid or expired authorization code"))
    /\ _authorization_code_cache st1 = _authorization_code_cache st
    /\ forall now' code_verifier',
        (now' - cd_created_at cd < 600)%Z ->
        (truthy (cd_code_challenge cd) && truthy (cd_code_challenge_method cd)
         = true -> truthy code_verifier' = true) ->
        (proxy_mode = true ->
         is_Some (TokenStore.get_external_token ops (token_store st1) now'
                    (cd_user_id cd) "linkedin")) ->
        exists st2 token,
          exchange_authorization_code ops proxy_mode now' st1 code
            (cd_client_id cd) (cd_redirect_uri cd) code_verifier'
          = (st2, Return token)
          /\ token_scope token = cd_scope cd
          /\ _authorization_code_cache st2 !! code = None.
Proof.
  intros Hc Hage Hne Hstore.
  rewrite exchange_fallback
    by (by apply (check_code_cache_mismatch _ _ _ cd)).
  simpl. rewrite Hstore.
  eexists. split; [reflexivity|]. split; [done|].
  intros now' v' Hage' Hv' Hlinked.
  rewrite exchange_cached by done. simpl in *.
  destruct proxy_mode.
  - destruct (Hlinked eq_refl) as [lt Hlt]. rewrite Hlt.
    do 2 eexists. split; [reflexivity|]. simpl.
    split; [done|apply lookup_delete_eq].
  - do 2 eexists. split; [reflexivity|]. simpl.
    split; [done|apply lookup_delete_eq].
Qed.

End ProxyExchange.

Lemma proxy_exchange_returns_external_token_witness :
  exists st' token,
    exchange_authorization_code Example.ops true 300
      (Example.called_back None None 100) "code-0" "client-1" Example.cb_uri None
    = (st', Return token)
    /\ access_token token = "li-access"
    /\ forall now' t,
        MemStore.validate_access_token (token_store st') now' t
        = MemStore.validate_access_token
            (token_store (Example.called_back None None 100)) now' t.
Proof.
  destruct (exchange_authorization_code Example.ops true 300
              (Example.called_back None None 100) "code-0" "client-1"
              Example.cb_uri None) as [st' [token|e]] eqn:Hex.
  - exists st', token. split; [reflexivity|].
    split; [vm_compute in Hex; by injection Hex as _ <-|].
    apply (proxy_exchange_returns_external_token Example.ops 300
             (Example.called_back None None 100) "code-0" "client-1"
             Example.cb_uri None st' token
             (mem_store_code_validation_keeps_tokens MemStore.plain) Hex).
  - vm_compute in Hex. discriminate.
Defined.

Lemma proxy_exchange_without_external_token_witness :
  exists st1,
    exchange_authorization_code Example.ops true 10 Example.st_unlinked "code-9"
      "client-1" Example.cb_uri None
    = (st1, Raise (TokenError "invalid_grant" "LinkedIn token not found"))
    /\ _authorization_code_cache st1 !! "code-9" = None
    /\ exists st2 e,
        exchange_authorization_code Example.ops true 20 st1 "code-9" "client-1"
          Example.cb_uri None = (st2, Raise e)
        /\ is_invalid_grant e.
Proof.
  destruct (proxy_exchange_without_external_token Example.ops 10
              Example.st_unlinked "code-9" Example.orphan_code None)
    as (st1 & Hex & Hgone & _ & Hretry).
  - reflexivity.
  - simpl. lia.
  - simpl. discriminate.
  - reflexivity.
  - exists st1. split; [exact Hex|]. split; [exact Hgone|].
    apply (Hretry 20%Z None). intros store cd' Hval.
    vm_compute in Hval. discriminate.
Defined.

Lemma mismatched_exchange_keeps_code_witness :
  exists st1,
    exchange_authorization_code Example.ops false 200
      (Example.called_back None None 100) "code-0" "client-2" Example.cb_uri None
    = (st1, Raise (TokenError "invalid_grant"
                     "Invalid or expired authorization code"))
    /\ exists st2 token,
        exchange_authorization_code Example.ops false 300 st1 "code-0" "client-1"
          Example.cb_uri None = (st2, Return token)
        /\ token_scope token = Some "profile".
Proof.
  destruct (mismatched_exchange_keeps_code Example.ops false 200
              (Example.called_back None None 100) "code-0"
              {| cd_user_id := "user-1"; cd_client_id := "client-1";
                 cd_redirect_uri := Example.cb_uri; cd_scope := Some "profile";
                 cd_code_challenge := None; cd_code_challenge_method := None;
                 cd_created_at := 100 |}
              "client-2" Example.cb_uri None)
    as (st1 & Hex & _ & Hlater).
  - vm_compute. reflexivity.
  - simpl. lia.
  - left. discriminate.
  - vm_compute. reflexivity.
  - exists st1. split; [exact Hex|].
    destruct (Hlater 300%Z None) as (st2 & token & Hex2 & Hscope & _).
    + simpl. lia.
    + simpl. discriminate.
    + discriminate.
    + by exists st2, token.
Defined.

(** C8, as stated, fails: when LinkedIn's refresh call fails, the valid
    local token with an expired, refreshable external token is refused. *)
Lemma refresh_can_fail : ~ refresh_never_fails.
Proof.
  intros Hclaim.
  destruct (Hclaim MemStore.t Example.ops 1000%Z Example.st_expired
              Example.linkedin_down "access-0"
              {| td_user_id := "user-1"; td_client_id := "client-1";
                 td_scope := Some "profile" |}
              {| et_access_token := "li-access";
                 et_refresh_token := Some "li-refresh";
                 et_expires_in := Some 60%Z |}
              "li-refresh") as [vt Hvt].
  - apply mem_store_update_then_get.
  - vm_compute. reflexivity.
  - vm_compute. reflexivity.
  - vm_compute. reflexivity.
  - reflexivity.
  - discriminate.
  - vm_compute in Hvt. discriminate.
Qed.

Section Validate.
Context {S : Type}.
Variable ops : TokenStore.t S.

(** C8, amended. In standard mode, for a valid local access token whose
    linked external token is expired: with a non-empty refresh token,
    [validate_access_token] calls LinkedIn's refresh; when the call
    answers with an access token, the new external token is written to
    the token store and [{user_id, external_access_token}] is returned
    with the new access token; when the call fails, the validation
    fails with [invalid_token] and nothing is written.  Without a
    refresh token it fails with [invalid_token]. *)
Theorem validate_access_token_refresh now (st : State S) linkedin token td lt :
  update_then_get ops ->
  TokenStore.validate_access_token ops (token_store st) now token = Some td ->
  TokenStore.get_external_token ops (token_store st) now (td_user_id td)
    "linkedin" = Some lt ->
  TokenStore.is_external_token_expired ops (token_store st) now
    (td_user_id td) "linkedin" = true ->
  (forall rt new_token new_access,
      et_refresh_token lt = Some rt -> rt <> "" ->
      LinkedInOAuthClient.refresh_access_token linkedin rt = Some new_token ->
      tr_access_token new_token = Some new_access ->
      validate_access_token ops false now st linkedin token
      = (Build_State (_authorization_code_cache st)
           (TokenStore.update_external_token ops (token_store st) now
              (td_user_id td) new_access
              (match tr_refresh_token new_token with
               | Some r => Some r
               | None => Some rt
               end)
              (default 5184000%Z (tr_expires_in new_token)) "linkedin")
           (_pending_authorizations st),
         Return {| vt_user_id := td_user_id td;
                   vt_external_access_token := new_access;
                   vt_token_data := Some td |}))
  /\ (forall rt,
        et_refresh_token lt = Some rt -> rt <> "" ->
        LinkedInOAuthClient.refresh_access_token linkedin rt ≫= tr_access_token
        = None ->
        validate_access_token ops false now st linkedin token
        = (st, Raise (TokenError "invalid_token"
                        "Failed to refresh LinkedIn token")))
  /\ (truthy (et_refresh_token lt) = false ->
      validate_access_token ops false now st linkedin token
      = (st, Raise (TokenError "invalid_token"
                      "LinkedIn token expired and no refresh token available"))).
Proof.
  intros Hlaw Htd Hlt Hexp. unfold validate_access_token.
  rewrite Htd, Hlt, Hexp. repeat split.
  - intros rt new_token new_access Hrt Hne Hnew Hacc.
    rewrite Hrt. simpl. rewrite (bool_decide_eq_false_2 _ Hne). simpl.
    rewrite Hnew, Hacc.
    destruct (Hlaw (token_store st) now (td_user_id td) new_access
                (match tr_refresh_token new_token with
                 | Some r => Some r
                 | None => Some rt
                 end)
                (default 5184000%Z (tr_expires_in new_token)) "linkedin")
      as (lt' & -> & <-).
    done.
  - intros rt Hrt Hne Hfail.
    rewrite Hrt. simpl. rewrite (bool_decide_eq_false_2 _ Hne). simpl.
    destruct (LinkedInOAuthClient.refresh_access_token linkedin rt)
      as [new_token|]; [|done].
    simpl in Hfail. by rewrite Hfail.
  - intros Hno. destruct (et_refresh_token lt) as [rt|]; [|done].
    by rewrite Hno.
Qed.

End Validate.

Lemma validate_access_token_refresh_witness :
  snd (validate_access_token Example.ops false 1000 Example.st_expired
         Example.linkedin "access-0")
  = Return {| vt_user_id := "user-1";
              vt_external_access_token := "li-access-2";
              vt_token_data :=
                Some {| td_user_id := "user-1"; td_client_id := "client-1";
                        td_scope := Some "profile" |} |}
  /\ validate_access_token Example.ops false 1000 Example.st_expired
       Example.linkedin_down "access-0"
     = (Example.st_expired,
        Raise (TokenError "invalid_token" "Failed to refresh LinkedIn token")).
Proof.
  pose proof (fun linkedin =>
    validate_access_token_refresh Example.ops 1000 Example.st_expired linkedin
      "access-0"
      {| td_user_id := "user-1"; td_client_id := "client-1";
         td_scope := Some "profile" |}
      {| et_access_token := "li-access";
         et_refresh_token := Some "li-refresh";
         et_expires_in := Some 60%Z |}
      (mem_store_update_then_get MemStore.plain) eq_refl eq_refl eq_refl) as H.
  split.
  - destruct (H Example.linkedin) as (Hok & _ & _).
    rewrite (Hok "li-refresh"
               {| tr_access_token := Some "li-access-2";
                  tr_refresh_token := None;
                  tr_expires_in := Some 5184000%Z |}
               "li-access-2" eq_refl ltac:(discriminate) eq_refl eq_refl).
    reflexivity.
  - destruct (H Example.linkedin_down) as (_ & Hfail & _).
    apply (Hfail "li-refresh" eq_refl ltac:(discriminate) eq_refl).
Defined.

Section SingleUse.
Context {S : Type}.
Variable ops : TokenStore.t S.

(** After a code was exchanged through the cache, a second exchange is
    decided by the token store alone: it is refused when the store
    does not know the code. *)
Lemma second_exchange_refused_by_store proxy_mode now now' (st : State S)
    code cd v v' st1 token :
  _authorization_code_cache st !! code = Some cd ->
  exchange_authorization_code ops proxy_mode now st code (cd_client_id cd)
    (cd_redirect_uri cd) v = (st1, Return token) ->
  snd (TokenStore.validate_authorization_code ops (token_store st1) now' code
         (cd_client_id cd) (cd_redirect_uri cd) v') = None ->
  exists st2 e,
    exchange_authorization_code ops proxy_mode now' st1 code (cd_client_id cd)
      (cd_redirect_uri cd) v' = (st2, Raise e)
    /\ is_invalid_grant e.
Proof.
  intros Hc Hex Hstore.
  assert (_authorization_code_cache st1 !! code = None) as Hgone.
  { revert Hex. unfold exchange_authorization_code, check_code_cache.
    rewrite Hc. rewrite !bool_decide_eq_true_2 by done. simpl.
    repeat case_match; intros ?; simplify_eq; simpl; apply lookup_delete_eq. }
  rewrite exchange_fallback by (by apply check_code_cache_absent).
  simpl. rewrite Hstore. do 2 eexists. split; [reflexivity|]. by eexists.
Qed.

(** A code that the cache accepts is exchanged in the same way for
    every non-empty verifier: the verifier is never compared with the
    recorded challenge. *)
Lemma exchange_cached_ignores_verifier proxy_mode now (st : State S) code cd
    v v' :
  _authorization_code_cache st !! code = Some cd ->
  (now - cd_created_at cd < 600)%Z ->
  truthy v = true -> truthy v' = true ->
  exchange_authorization_code ops proxy_mode now st code (cd_client_id cd)
    (cd_redirect_uri cd) v
  = exchange_authorization_code ops proxy_mode now st code (cd_client_id cd)
      (cd_redirect_uri cd) v'.
Proof.
  intros Hc Hage Hv Hv'. by rewrite !exchange_cached.
Qed.

End SingleUse.

(** C1 on a shared token store: LinkedIn's callback records the code both
    in the token store and in the cache; the first exchange consumes
    the cache entry only, and the second exchange of the same code,
    within its lifetime and with the same client and redirect URI, is
    served by the token store's copy and returns a second token. *)
Theorem authorization_code_exchanged_twice :
  snd (handle_external_callback Example.ops 100 (Example.authorized None None)
         Example.linkedin "li-code" "ls-1")
  = Return {| cb_code := "code-0"; cb_state := "s1";
              cb_redirect_uri := Example.cb_uri |}
  /\ exists st3 token1 st4 token2,
      exchange_authorization_code Example.ops false 200
        (Example.called_back None None 100) "code-0" "client-1" Example.cb_uri
        None = (st3, Return token1)
      /\ _authorization_code_cache st3 !! "code-0" = None
      /\ is_Some (MemStore.authorization_codes (token_store st3) !! "code-0")
      /\ exchange_authorization_code Example.ops false 300 st3 "code-0"
           "client-1" Example.cb_uri None = (st4, Return token2).
Proof.
  split; [vm_compute; reflexivity|].
  destruct (exchange_authorization_code Example.ops false 200
              (Example.called_back None None 100) "code-0" "client-1"
              Example.cb_uri None) as [st3 r1] eqn:H1.
  destruct (exchange_authorization_code Example.ops false 300 st3 "code-0"
              "client-1" Example.cb_uri None) as [st4 r2] eqn:H2.
  vm_compute in H1. injection H1 as <- <-.
  vm_compute in H2. injection H2 as <- <-.
  do 4 eexists. split; [reflexivity|].
  split; [vm_compute; reflexivity|].
  split; [vm_compute; eauto|reflexivity].
Qed.

(** C3 on a code recorded with the challenge ["challenge-abc"] and the
    method ["plain"]: the exchange with the verifier ["not-the-verifier"]
    returns a token, although the token store refuses that verifier for
    the same code; and a code recorded with a challenge but no method is
    exchanged without any verifier. *)
Theorem pkce_verifier_not_checked :
  (exists st3 token,
      exchange_authorization_code Example.ops false 200
        (Example.called_back (Some "challenge-abc") (Some "plain") 100)
        "code-0" "client-1" Example.cb_uri (Some "not-the-verifier")
      = (st3, Return token))
  /\ snd (MemStore.validate_authorization_code MemStore.plain
            (token_store
               (Example.called_back (Some "challenge-abc") (Some "plain") 100))
            200 "code-0" "client-1" Example.cb_uri (Some "not-the-verifier"))
     = None
  /\ (exists st3 token,
        exchange_authorization_code Example.ops false 200
          (Example.called_back (Some "challenge-abc") None 100)
          "code-0" "client-1" Example.cb_uri None
        = (st3, Return token)).
Proof.
  split; [|split].
  - destruct (exchange_authorization_code Example.ops false 200
                (Example.called_back (Some "challenge-abc") (Some "plain") 100)
                "code-0" "client-1" Example.cb_uri (Some "not-the-verifier"))
      as [st3 r] eqn:H.
    vm_compute in H. injection H as <- <-. by do 2 eexists.
  - vm_compute. reflexivity.
  - destruct (exchange_authorization_code Example.ops false 200
                (Example.called_back (Some "challenge-abc") None 100)
                "code-0" "client-1" Example.cb_uri None) as [st3 r] eqn:H.
    vm_compute in H. injection H as <- <-. by do 2 eexists.
Qed.

(** ** Further properties of the provider *)

Section AuthorizeMore.
Context {S : Type}.
Variable ops : TokenStore.t S.

(** X1. [authorize] raises exactly when the token store rejects the
    client or its redirect URI; the exception is then [invalid_client]
    and the state is left as it was. *)
Theorem authorize_raises_invalid_client now (st : State S) linkedin params
    linkedin_state :
  (TokenStore.validate_client ops (token_store st) (client_id params)
     (redirect_uri params) = false ->
   authorize ops now st linkedin params linkedin_state
   = (st, Raise InvalidClient))
  /\ (forall st' e,
        authorize ops now st linkedin params linkedin_state = (st', Raise e) ->
        e = InvalidClient /\ st' = st
        /\ TokenStore.validate_client ops (token_store st) (client_id params)
             (redirect_uri params) = false).
Proof.
  split.
  - intros Hv. unfold authorize. by rewrite Hv.
  - intros st' e. unfold authorize.
    destruct (TokenStore.validate_client _ _ _ _); simpl.
    + repeat (case_match; simplify_eq; try done).
    + by intros [= <- <-].
Qed.

(** X2. [authorize] never writes to the authorization-code cache; of the
    pending authorizations it touches only the one under the client's
    state and the one under the generated state; and it changes the token
    store only when it returns a code. *)
Theorem authorize_frame now (st : State S) linkedin params linkedin_state :
  _authorization_code_cache
    (fst (authorize ops now st linkedin params linkedin_state))
  = _authorization_code_cache st
  /\ (forall s,
        s <> linkedin_state -> s <> default "" (state params) ->
        _pending_authorizations
          (fst (authorize ops now st linkedin params linkedin_state)) !! s
        = _pending_authorizations st !! s)
  /\ (forall st' r,
        authorize ops now st linkedin params linkedin_state = (st', r) ->
        (forall code s, r <> Return (CodeIssued code s)) ->
        token_store st' = token_store st).
Proof.
  unfold authorize. repeat split.
  - repeat (case_match; simplify_eq; try done).
  - intros s Hs1 Hs2.
    repeat (case_match; simplify_eq; simpl; try done);
      by rewrite ?lookup_insert_ne, ?lookup_delete_ne by done.
  - intros st' r H Hr.
    repeat (case_match; simplify_eq; simpl; try done).
    by destruct (Hr _ _ eq_refl).
Qed.

(** X3. Pending authorizations never name a user: the empty map does not,
    and [authorize] and [handle_external_callback] keep it so.  Hence
    [authorize] never returns a code directly: for a valid client it
    always stores a pending authorization and redirects to LinkedIn,
    without touching the token store. *)
Theorem authorize_always_redirects now (st : State S) linkedin params
    linkedin_state :
  no_user_ids ∅
  /\ (no_user_ids (_pending_authorizations st) ->
      no_user_ids
        (_pending_authorizations
           (fst (authorize ops now st linkedin params linkedin_state)))
      /\ (forall code state,
            no_user_ids
              (_pending_authorizations
                 (fst (handle_external_callback ops now st linkedin code state))))
      /\ (TokenStore.validate_client ops (token_store st) (client_id params)
            (redirect_uri params) = true ->
          authorize ops now st linkedin params linkedin_state
          = (Build_State (_authorization_code_cache st) (token_store st)
               (<[linkedin_state := pending_of params]>
                  (_pending_authorizations st)),
             Return (ExternalRedirect
                       (LinkedInOAuthClient.get_authorization_url linkedin
                          linkedin_state)
                       linkedin_state)))).
Proof.
  split; [intros s e H; by rewrite lookup_empty in H|].
  intros Hinv.
  assert (forall user_id, ~ linked ops now st params user_id) as Hnot.
  { intros uid ((p & Hp & Hu) & _). apply Hinv in Hp. congruence. }
  assert (forall k, no_user_ids (delete k (_pending_authorizations st))) as Hdel.
  { intros k s e [_ H]%lookup_delete_Some. by eapply Hinv. }
  repeat split.
  - destruct (TokenStore.validate_client ops (token_store st) (client_id params)
                (redirect_uri params)) eqn:Hv.
    + rewrite (authorize_not_linked ops _ _ _ _ _ Hv Hnot). simpl.
      intros s e [[_ <-]|[_ H]]%lookup_insert_Some; [done|by eapply Hinv].
    + unfold authorize. by rewrite Hv.
  - intros code state. unfold handle_external_callback.
    repeat (case_match; simplify_eq; simpl; try done).
  - intros Hv. by apply authorize_not_linked.
Qed.

End AuthorizeMore.

Lemma authorize_raises_invalid_client_witness :
  authorize Example.ops 0 Example.st0 Example.linkedin
    {| client_id := "client-2"; redirect_uri := Example.cb_uri;
       state := Some "s1"; scope := None;
       code_challenge := None; code_challenge_method := None |} "ls-1"
  = (Example.st0, Raise InvalidClient).
Proof.
  apply (authorize_raises_invalid_client Example.ops 0 Example.st0
           Example.linkedin).
  reflexivity.
Defined.

Lemma authorize_frame_witness :
  _pending_authorizations
    (fst (authorize Example.ops 10 Example.st_linked Example.linkedin
            (Example.params None None) "ls-2")) !! "ls-9"
  = _pending_authorizations Example.st_linked !! "ls-9".
Proof.
  apply (authorize_frame Example.ops 10 Example.st_linked Example.linkedin
           (Example.params None None) "ls-2"); discriminate.
Defined.

Lemma authorize_always_redirects_witness :
  authorize Example.ops 0 Example.st0 Example.linkedin
    (Example.params None None) "ls-1"
  = (Build_State ∅ Example.store0
       (<["ls-1" := pending_of (Example.params None None)]> ∅),
     Return (ExternalRedirect
               "https://www.linkedin.com/oauth/v2/authorization?state=ls-1"
               "ls-1")).
Proof.
  destruct (authorize_always_redirects Example.ops 0 Example.st0
              Example.linkedin (Example.params None None) "ls-1")
    as [Hempty Hinv].
  destruct (Hinv Hempty) as (_ & _ & Hredirect).
  apply Hredirect. reflexivity.
Defined.

Section CallbackMore.
Context {S : Type}.
Variable ops : TokenStore.t S.

(** X4. A pending authorization is consumed by the callback that
    succeeds on it: any further callback with the same state, whatever
    the code, the time and LinkedIn's answers, fails with [InvalidState]
    and changes nothing.  The other pending authorizations are kept. *)
Theorem callback_consumes_state now (st : State S) linkedin code state st' cb :
  handle_external_callback ops now st linkedin code state = (st', Return cb) ->
  (forall now' linkedin' code',
      handle_external_callback ops now' st' linkedin' code' state
      = (st', Raise InvalidState))
  /\ (forall s, s <> state ->
        _pending_authorizations st' !! s = _pending_authorizations st !! s).
Proof.
  intros H.
  apply handle_external_callback_return in H
    as (pending & tok & a & uid & store2 & _ & _ & _ & _ & _ & -> & _).
  split.
  - intros now' linkedin' code'. unfold handle_external_callback. simpl.
    by rewrite lookup_delete_eq.
  - intros s Hs. simpl. by rewrite lookup_delete_ne.
Qed.

(** X5. The callback answers the client's own request: after [authorize]
    redirected to LinkedIn, the callback on the generated state returns
    the state and the redirect URI the client passed to [authorize] (not
    the generated state), and the code it returns is recorded in the
    cache for the LinkedIn user [sub], with the client, redirect URI,
    scope and PKCE challenge of the request and the time of the
    callback. *)
Theorem callback_answers_request t0 t1 (st : State S) linkedin0 linkedin1
    params linkedin_state url st1 code st2 cb :
  authorize ops t0 st linkedin0 params linkedin_state
  = (st1, Return (ExternalRedirect url linkedin_state)) ->
  handle_external_callback ops t1 st1 linkedin1 code linkedin_state
  = (st2, Return cb) ->
  cb_state cb = default "" (state params)
  /\ cb_redirect_uri cb = redirect_uri params
  /\ exists linkedin_token linkedin_access user_id,
      LinkedInOAuthClient.exchange_code_for_token linkedin1 code
      = Some linkedin_token
      /\ tr_access_token linkedin_token = Some linkedin_access
      /\ LinkedInOAuthClient.get_user_info linkedin1 linkedin_access ≫= sub
         = Some user_id
      /\ _authorization_code_cache st2 !! cb_code cb
         = Some {| cd_user_id := user_id;
                   cd_client_id := client_id params;
                   cd_redirect_uri := redirect_uri params;
                   cd_scope := scope params;
                   cd_code_challenge := code_challenge params;
                   cd_code_challenge_method := code_challenge_method params;
                   cd_created_at := t1 |}.
Proof.
  intros Hauth Hcb.
  apply authorize_redirect in Hauth as [_ ->].
  apply handle_external_callback_return in Hcb
    as (pending & tok & a & uid & store2 & Hp & Hx & Ha & Hu & _ & -> & -> & ->).
  simpl in Hp. rewrite lookup_insert_eq in Hp. injection Hp as <-.
  split; [done|]. split; [done|].
  exists tok, a, uid. repeat split; try done.
  simpl. by rewrite lookup_insert_eq.
Qed.

End CallbackMore.

Lemma callback_consumes_state_witness :
  handle_external_callback Example.ops 500 (Example.called_back None None 100)
    Example.linkedin "li-code" "ls-1"
  = (Example.called_back None None 100, Raise InvalidState).
Proof.
  eapply (callback_consumes_state Example.ops 100 (Example.authorized None None)
            Example.linkedin "li-code" "ls-1").
  vm_compute. reflexivity.
Defined.

Lemma callback_answers_request_witness :
  cb_state {| cb_code := "code-0"; cb_state := "s1";
              cb_redirect_uri := Example.cb_uri |}
  = default "" (state (Example.params None None)).
Proof.
  eapply (callback_answers_request Example.ops 0 100 Example.st0
            Example.linkedin Example.linkedin (Example.params None None) "ls-1"
            "https://www.linkedin.com/oauth/v2/authorization?state=ls-1"
            (Example.authorized None None) "li-code"
            (Example.called_back None None 100)).
  - vm_compute. reflexivity.
  - vm_compute. reflexivity.
Defined.

Section ExchangeMore.
Context {S : Type}.
Variable ops : TokenStore.t S.

(** X6. Whatever its outcome, [exchange_authorization_code] never touches
    the pending authorizations, never adds to the cache and leaves every
    other code of the cache as it was: the entry of the presented code is
    either removed or the cache is unchanged. *)
Theorem exchange_frame proxy_mode now (st : State S) code client_id'
    redirect_uri' code_verifier :
  _pending_authorizations
    (fst (exchange_authorization_code ops proxy_mode now st code client_id'
            redirect_uri' code_verifier))
  = _pending_authorizations st
  /\ (_authorization_code_cache
        (fst (exchange_authorization_code ops proxy_mode now st code client_id'
                redirect_uri' code_verifier))
      = _authorization_code_cache st
      \/ _authorization_code_cache
           (fst (exchange_authorization_code ops proxy_mode now st code
                   client_id' redirect_uri' code_verifier))
         = delete code (_authorization_code_cache st))
  /\ (forall c, c <> code ->
        _authorization_code_cache
          (fst (exchange_authorization_code ops proxy_mode now st code
                  client_id' redirect_uri' code_verifier)) !! c
        = _authorization_code_cache st !! c).
Proof.
  assert (_pending_authorizations
            (fst (exchange_authorization_code ops proxy_mode now st code
                    client_id' redirect_uri' code_verifier))
          = _pending_authorizations st
          /\ (_authorization_code_cache
                (fst (exchange_authorization_code ops proxy_mode now st code
                        client_id' redirect_uri' code_verifier))
              = _authorization_code_cache st
              \/ _authorization_code_cache
                   (fst (exchange_authorization_code ops proxy_mode now st code
                           client_id' redirect_uri' code_verifier))
                 = delete code (_authorization_code_cache st))) as [Hp Hc].
  { unfold exchange_authorization_code.
    destruct (check_code_cache _ _ _ _ _ _) as [[cache cached]|] eqn:Hc;
      [|by split; [|left]].
    apply check_code_cache_result in Hc as [Hc _].
    repeat (case_match; simplify_eq; simpl); by split. }
  split; [done|]. split; [done|].
  intros c Hne. destruct Hc as [->| ->]; [done|by rewrite lookup_delete_ne].
Qed.

(** X7. A cached code is good for less than 600 seconds: presented at an
    age of 600 seconds or more, its cache entry is removed whatever the
    outcome, and the exchange is decided by the token store alone; when
    the store refuses the code, the exchange fails with [invalid_grant]. *)
Theorem exchange_expired_code proxy_mode now (st : State S) code cd client_id'
    redirect_uri' code_verifier :
  _authorization_code_cache st !! code = Some cd ->
  (600 <= now - cd_created_at cd)%Z ->
  _authorization_code_cache
    (fst (exchange_authorization_code ops proxy_mode now st code client_id'
            redirect_uri' code_verifier)) !! code = None
  /\ (snd (TokenStore.validate_authorization_code ops (token_store st) now code
             client_id' redirect_uri' code_verifier) = None ->
      snd (exchange_authorization_code ops proxy_mode now st code client_id'
             redirect_uri' code_verifier)
      = Raise (TokenError "invalid_grant"
                 "Invalid or expired authorization code")).
Proof.
  intros Hc Hage. unfold exchange_authorization_code, check_code_cache.
  rewrite Hc. assert ((now - cd_created_at cd <? 600)%Z = false) as -> by lia.
  destruct (TokenStore.validate_authorization_code _ _ _ _ _ _ _)
    as [store [cd'|]]; simpl.
  - split; [|done].
    repeat (case_match; simplify_eq; simpl); apply lookup_delete_eq.
  - split; [apply lookup_delete_eq|done].
Qed.

(** X8. A cached code recorded with a PKCE challenge and method cannot be
    exchanged without a verifier: the exchange fails with
    [invalid_grant], the token store is not consulted and the code is not
    consumed, so that the same code, presented within its lifetime with
    any non-empty verifier, is exchanged in standard mode. *)
Theorem exchange_requires_verifier proxy_mode now (st : State S) code cd
    code_verifier :
  _authorization_code_cache st !! code = Some cd ->
  (now - cd_created_at cd < 600)%Z ->
  truthy (cd_code_challenge cd) = true ->
  truthy (cd_code_challenge_method cd) = true ->
  truthy code_verifier = false ->
  exchange_authorization_code ops proxy_mode now st code (cd_client_id cd)
    (cd_redirect_uri cd) code_verifier
  = (st, Raise (TokenError "invalid_grant" "code_verifier required for PKCE"))
  /\ forall now' code_verifier',
      (now' - cd_created_at cd < 600)%Z ->
      truthy code_verifier' = true ->
      exists st2 token,
        exchange_authorization_code ops false now' st code (cd_client_id cd)
          (cd_redirect_uri cd) code_verifier' = (st2, Return token)
        /\ token_scope token = cd_scope cd.
Proof.
  intros Hc Hage Hch Hm Hv. split.
  - unfold exchange_authorization_code, check_code_cache. rewrite Hc.
    assert ((now - cd_created_at cd <? 600)%Z = true) as -> by lia.
    rewrite !bool_decide_eq_true_2 by done. simpl.
    by rewrite Hch, Hm, Hv.
  - intros now' v' Hage' Hv'. rewrite exchange_cached by done.
    by do 2 eexists.
Qed.

End ExchangeMore.

Lemma exchange_frame_witness :
  _authorization_code_cache
    (fst (exchange_authorization_code Example.ops false 200
            (Example.called_back None None 100) "code-7" "client-1"
            Example.cb_uri None)) !! "code-0"
  = _authorization_code_cache (Example.called_back None None 100) !! "code-0".
Proof.
  apply (exchange_frame Example.ops false 200
           (Example.called_back None None 100) "code-7" "client-1"
           Example.cb_uri None).
  discriminate.
Defined.

Lemma exchange_expired_code_witness :
  _authorization_code_cache
    (fst (exchange_authorization_code Example.ops true 600 Example.st_unlinked
            "code-9" "client-1" Example.cb_uri None)) !! "code-9" = None
  /\ snd (exchange_authorization_code Example.ops true 600 Example.st_unlinked
            "code-9" "client-1" Example.cb_uri None)
     = Raise (TokenError "invalid_grant" "Invalid or expired authorization code").
Proof.
  destruct (exchange_expired_code Example.ops true 600 Example.st_unlinked
              "code-9" Example.orphan_code "client-1" Example.cb_uri None)
    as [Hgone Hfail].
  - reflexivity.
  - simpl. lia.
  - split; [exact Hgone|]. apply Hfail. reflexivity.
Defined.

Lemma exchange_requires_verifier_witness :
  exchange_authorization_code Example.ops false 200
    (Example.called_back (Some "challenge-abc") (Some "plain") 100) "code-0"
    "client-1" Example.cb_uri None
  = (Example.called_back (Some "challenge-abc") (Some "plain") 100,
     Raise (TokenError "invalid_grant" "code_verifier required for PKCE")).
Proof.
  apply (exchange_requires_verifier Example.ops false 200
           (Example.called_back (Some "challenge-abc") (Some "plain") 100)
           "code-0"
           {| cd_user_id := "user-1"; cd_client_id := "client-1";
              cd_redirect_uri := Example.cb_uri; cd_scope := Some "profile";
              cd_code_challenge := Some "challenge-abc";
              cd_code_challenge_method := Some "plain";
              cd_created_at := 100 |} None).
  - vm_compute. reflexivity.
  - simpl. lia.
  - reflexivity.
  - reflexivity.
  - reflexivity.
Defined.

Section ValidateMore.
Context {S : Type}.
Variable ops : TokenStore.t S.

(** X9. In proxy mode [validate_access_token] is stateless: it leaves the
    state as it was, its answer depends neither on the token store, nor on
    the cache, nor on the time, only on LinkedIn's userinfo endpoint; and
    when it returns, the external access token is the presented token
    itself and the user is LinkedIn's [sub]. *)
Theorem validate_access_token_proxy_stateless now (st : State S) linkedin token :
  fst (validate_access_token ops true now st linkedin token) = st
  /\ (forall (S' : Type) (ops' : TokenStore.t S') now' (st' : State S'),
        snd (validate_access_token ops' true now' st' linkedin token)
        = snd (validate_access_token ops true now st linkedin token))
  /\ (forall vt,
        snd (validate_access_token ops true now st linkedin token) = Return vt ->
        vt_external_access_token vt = token
        /\ LinkedInOAuthClient.get_user_info linkedin token ≫= sub
           = Some (vt_user_id vt))
  /\ (forall e,
        snd (validate_access_token ops true now st linkedin token) = Raise e ->
        e = TokenError "invalid_token" "Invalid or expired LinkedIn token"
        /\ LinkedInOAuthClient.get_user_info linkedin token ≫= sub = None).
Proof.
  unfold validate_access_token.
  destruct (LinkedInOAuthClient.get_user_info linkedin token ≫= sub)
    as [user_id|]; simpl.
  - split; [done|]. split; [done|]. split.
    + by intros vt [= <-].
    + by intros e.
  - split; [done|]. split; [done|]. split.
    + by intros vt.
    + by intros e [= <-].
Qed.

(** X10. In standard mode, over a token store that returns an external
    token just updated, [validate_access_token] fails only with
    [invalid_token] or [insufficient_scope]; it fails with
    [insufficient_scope] exactly when the local token is valid and its
    user has no linked external token; a failure leaves the state as it
    was; and in every case the cache and the pending authorizations are
    untouched. *)
Theorem validate_access_token_failures now (st : State S) linkedin token :
  update_then_get ops ->
  (forall st' e,
      validate_access_token ops false now st linkedin token = (st', Raise e) ->
      st' = st
      /\ ((exists d, e = TokenError "invalid_token" d)
          \/ e = TokenError "insufficient_scope" "LinkedIn account not linked"))
  /\ (snd (validate_access_token ops false now st linkedin token)
      = Raise (TokenError "insufficient_scope" "LinkedIn account not linked")
      <-> exists td,
          TokenStore.validate_access_token ops (token_store st) now token
          = Some td
          /\ TokenStore.get_external_token ops (token_store st) now
               (td_user_id td) "linkedin" = None)
  /\ _authorization_code_cache
       (fst (validate_access_token ops false now st linkedin token))
     = _authorization_code_cache st
  /\ _pending_authorizations
       (fst (validate_access_token ops false now st linkedin token))
     = _pending_authorizations st.
Proof.
  intros Hlaw. split; [|split; [split|split]].
  - intros st' e. unfold validate_access_token.
    repeat case_match; intros [= <- <-]; simplify_eq;
      try (split; [done|]; first [by right|left; by eexists]).
    all: exfalso;
    match goal with
    | H : TokenStore.get_external_token ops
            (TokenStore.update_external_token ops ?s ?n ?u ?a ?r ?x ?p) _ _ _
          = None |- _ =>
        destruct (Hlaw s n u a r x p) as (? & Heq & _); congruence
    end.
  - unfold validate_access_token.
    destruct (TokenStore.validate_access_token ops (token_store st) now token)
      as [td|]; [|done].
    destruct (TokenStore.get_external_token ops (token_store st) now
                (td_user_id td) "linkedin") eqn:Hlt; [|by exists td].
    repeat case_match; simpl; intros [=].
  - intros (td & Htd & Hlt). unfold validate_access_token. by rewrite Htd, Hlt.
  - unfold validate_access_token. by repeat case_match.
  - unfold validate_access_token. by repeat case_match.
Qed.

End ValidateMore.

Lemma validate_access_token_proxy_stateless_witness :
  snd (validate_access_token Example.ops true 7 Example.st0 Example.linkedin
         "li-access")
  = Return {| vt_user_id := "user-1"; vt_external_access_token := "li-access";
              vt_token_data := None |}
  /\ snd (validate_access_token Example.ops true 7 Example.st0 Example.linkedin
            "li-wrong")
     = Raise (TokenError "invalid_token" "Invalid or expired LinkedIn token").
Proof.
  pose proof (fun token =>
    validate_access_token_proxy_stateless Example.ops 7 Example.st0
      Example.linkedin token) as H.
  split.
  - destruct (H "li-access") as (_ & _ & Hok & _).
    destruct (snd (validate_access_token Example.ops true 7 Example.st0
                     Example.linkedin "li-access")) as [vt|e] eqn:Hr.
    + destruct (Hok vt eq_refl) as [Htok Huser].
      vm_compute in Huser. destruct vt as [u a d]. simpl in *.
      vm_compute in Hr. by injection Hr as <- <- <-.
    + vm_compute in Hr. discriminate.
  - destruct (H "li-wrong") as (_ & _ & _ & Herr).
    destruct (snd (validate_access_token Example.ops true 7 Example.st0
                     Example.linkedin "li-wrong")) as [vt|e] eqn:Hr.
    + vm_compute in Hr. discriminate.
    + by destruct (Herr e eq_refl) as [-> _].
Defined.

Lemma validate_access_token_failures_witness :
  snd (validate_access_token Example.ops false 200
         (Build_State ∅
            (fst (MemStore.create_access_token Example.store0 150 "user-1"
                    "client-1" None)) ∅)
         Example.linkedin "access-0")
  = Raise (TokenError "insufficient_scope" "LinkedIn account not linked").
Proof.
  apply (validate_access_token_failures Example.ops 200
           (Build_State ∅
              (fst (MemStore.create_access_token Example.store0 150 "user-1"
                      "client-1" None)) ∅)
           Example.linkedin "access-0"
           (mem_store_update_then_get MemStore.plain)).
  eexists. split; vm_compute; reflexivity.
Defined.

Section RefreshAndRegister.
Context {S : Type}.
Variable store_refresh_access_token :
  S -> Z -> string -> S * option (string * string).
Variable store_register_client :
  S -> string -> list string -> S * (string * string).


(** X12. In standard mode [exchange_refresh_token] is decided by the
    token store: it fails, with [invalid_grant], exactly when the store
    refuses the refresh token, and otherwise returns the store's new pair
    of tokens, good for 3600 seconds, with the scope the caller asked
    for.  LinkedIn is not called, and the cache and the pending
    authorizations are untouched. *)
Theorem exchange_refresh_token_standard now (st : State S) linkedin
    refresh_token' client_id' scope' :
  (snd (store_refresh_access_token (token_store st) now refresh_token') = None
   <-> exists e,
       snd (exchange_refresh_token store_refresh_access_token false now st
              linkedin refresh_token' client_id' scope') = Raise e)
  /\ (forall e,
        snd (exchange_refresh_token store_refresh_access_token false now st
               linkedin refresh_token' client_id' scope') = Raise e ->
        e = TokenError "invalid_grant" "Invalid refresh token")
  /\ (forall token,
        snd (exchange_refresh_token store_refresh_access_token false now st
               linkedin refresh_token' client_id' scope') = Return token ->
        snd (store_refresh_access_token (token_store st) now refresh_token')
        = Some (access_token token, default "" (refresh_token token))
        /\ is_Some (refresh_token token)
        /\ expires_in token = 3600%Z
        /\ token_type token = "Bearer"
        /\ token_scope token = scope')
  /\ (forall linkedin',
        exchange_refresh_token store_refresh_access_token false now st
          linkedin' refresh_token' client_id' scope'
        = exchange_refresh_token store_refresh_access_token false now st
            linkedin refresh_token' client_id' scope')
  /\ fst (exchange_refresh_token store_refresh_access_token false now st
            linkedin refresh_token' client_id' scope')
     = Build_State (_authorization_code_cache st)
         (fst (store_refresh_access_token (token_store st) now refresh_token'))
         (_pending_authorizations st).
Proof.
  unfold exchange_refresh_token.
  destruct (store_refresh_access_token (token_store st) now refresh_token')
    as [store [[a r]|]]; simpl.
  - split; [split; [done|by intros [e ?]]|].
    split; [by intros e|]. split; [|done].
    intros token [= <-]. simpl. repeat split; eauto.
  - split; [split; [by eexists|done]|].
    split; [by intros e [= <-]|]. split; [by intros token|done].
Qed.

(** X13. [register_client] refuses metadata without a redirect URI (the
    key missing or the list empty) with [invalid_redirect_uri], and then
    registers nothing in the token store.  When it registers, the client
    has at least one redirect URI, the name defaults to
    ["Unknown Client"], the credentials are those the token store
    generated, and the cache and the pending authorizations are
    untouched. *)
Theorem register_client_requires_redirect_uri (st : State S) client_metadata :
  (default [] (cm_redirect_uris client_metadata) = [] ->
   register_client store_register_client st client_metadata
   = (st, RegistrationError "invalid_redirect_uri"
            "At least one redirect URI required"))
  /\ (forall st' info,
        register_client store_register_client st client_metadata
        = (st', Registered info) ->
        cm_redirect_uris client_metadata = Some (ci_redirect_uris info)
        /\ ci_redirect_uris info <> []
        /\ ci_client_name info
           = default "Unknown Client" (cm_client_name client_metadata)
        /\ store_register_client (token_store st) (ci_client_name info)
             (ci_redirect_uris info)
           = (token_store st', (ci_client_id info, ci_client_secret info))
        /\ _authorization_code_cache st' = _authorization_code_cache st
        /\ _pending_authorizations st' = _pending_authorizations st).
Proof.
  unfold register_client. split.
  - by intros ->.
  - intros st' info.
    destruct (cm_redirect_uris client_metadata) as [[|uri uris]|]; simpl;
      [done| |done].
    destruct (store_register_client _ _ _) as [store [cid secret]] eqn:Hreg.
    intros [= <- <-]. simpl. by rewrite Hreg.
Qed.

End RefreshAndRegister.


Lemma exchange_refresh_token_standard_witness :
  snd (exchange_refresh_token
         (fun (s : MemStore.t) (_ : Z) (r : string) =>
            (s, if bool_decide (r = "refresh-1")
                then Some ("access-2", "refresh-2") else None))
         false 50 Example.st0 Example.linkedin "refresh-0" "client-1" None)
  = Raise (TokenError "invalid_grant" "Invalid refresh token").
Proof.
  destruct (exchange_refresh_token_standard
              (fun (s : MemStore.t) (_ : Z) (r : string) =>
                 (s, if bool_decide (r = "refresh-1")
                     then Some ("access-2", "refresh-2") else None))
              50 Example.st0 Example.linkedin "refresh-0" "client-1" None)
    as ([Hfail _] & Herr & _).
  destruct (Hfail eq_refl) as [e He]. rewrite He. f_equal. by apply Herr.
Defined.

Lemma register_client_requires_redirect_uri_witness :
  register_client
    (fun (s : MemStore.t) (_ : string) uris =>
       (MemStore.register_client s "client-9" uris, ("client-9", "secret-9")))
    Example.st0
    {| cm_client_name := Some "App"; cm_redirect_uris := Some [] |}
  = (Example.st0,
     RegistrationError "invalid_redirect_uri" "At least one redirect URI required").
Proof.
  apply (register_client_requires_redirect_uri
           (fun (s : MemStore.t) (_ : string) uris =>
              (MemStore.register_client s "client-9" uris,
               ("client-9", "secret-9")))
           Example.st0
           {| cm_client_name := Some "App"; cm_redirect_uris := Some [] |}).
  reflexivity.
Defined.

(** ** The LinkedIn client *)

Lemma hex_value_hex_digit n :
  (n < 16)%N -> OAuthClient.hex_value (OAuthClient.hex_digit n) = n.
Proof.
  intros Hn. unfold OAuthClient.hex_value, OAuthClient.hex_digit.
  destruct (N.ltb_spec n 10) as [Hlt|Hge].
  - rewrite N_ascii_embedding by lia.
    destruct (N.ltb_spec (48 + n) 58); lia.
  - rewrite N_ascii_embedding by lia.
    destruct (N.ltb_spec (55 + n) 58); lia.
Qed.

Lemma hex_digit_safe n :
  (n < 16)%N -> OAuthClient.always_safe (OAuthClient.hex_digit n) = true.
Proof.
  intros Hn. unfold OAuthClient.always_safe, OAuthClient.hex_digit.
  destruct (N.ltb_spec n 10) as [Hlt|Hge]; rewrite N_ascii_embedding by lia.
  - assert ((48 <=? 48 + n)%N && (48 + n <=? 57)%N = true) as ->
      by (apply andb_true_intro; split; apply N.leb_le; lia).
    by rewrite !orb_true_r.
  - assert ((65 <=? 55 + n)%N && (55 + n <=? 90)%N = true) as ->
      by (apply andb_true_intro; split; apply N.leb_le; lia).
    done.
Qed.

Lemma quote_plus_safe s :
  OAuthClient.all_chars OAuthClient.always_safe s = true ->
  OAuthClient.quote_plus s = s.
Proof.
  induction s as [|c s IH]; [done|]. simpl.
  intros [Hc Hs]%andb_true_iff. rewrite Hc. by rewrite IH.
Qed.

Lemma unquote_plus_safe c s :
  OAuthClient.always_safe c = true ->
  OAuthClient.unquote_plus (String c s) = String c (OAuthClient.unquote_plus s).
Proof.
  destruct c as [[] [] [] [] [] [] [] []]; try discriminate; reflexivity.
Qed.

(** X14. [quote_plus] writes only letters, digits, [_.-~], [%] and [+]:
    an encoded value contains no [&], [=], [?], [#], [/], [:] and no
    space, so a value cannot add a parameter to the query string. *)
Theorem quote_plus_alphabet s :
  OAuthClient.all_chars OAuthClient.url_char (OAuthClient.quote_plus s) = true
  /\ forallb (fun c => negb (OAuthClient.url_char c))
       ["&"; "="; "?"; "#"; "/"; ":"; " "]%char = true.
Proof.
  split; [|reflexivity].
  assert (forall n, (n < 16)%N ->
            OAuthClient.url_char (OAuthClient.hex_digit n) = true) as Hhex.
  { intros n Hn. unfold OAuthClient.url_char. by rewrite hex_digit_safe. }
  induction s as [|c s IH]; [done|]. cbn [OAuthClient.quote_plus].
  destruct (OAuthClient.always_safe c) eqn:Hc.
  - cbn [OAuthClient.all_chars]. rewrite IH, andb_true_r.
    unfold OAuthClient.url_char. by rewrite Hc.
  - pose proof (N_ascii_bounded c) as Hb.
    destruct (Ascii.eqb c " "); cbn [OAuthClient.all_chars]; rewrite IH.
    + reflexivity.
    + rewrite !Hhex; [reflexivity| |].
      * apply N.mod_lt. lia.
      * apply N.Div0.div_lt_upper_bound. lia.
Qed.

(** X15. [quote_plus] loses nothing: reading the escapes back gives the
    string that was encoded, so two different values never have the same
    encoding. *)
Theorem quote_plus_injective s1 s2 :
  OAuthClient.unquote_plus (OAuthClient.quote_plus s1) = s1
  /\ (OAuthClient.quote_plus s1 = OAuthClient.quote_plus s2 -> s1 = s2).
Proof.
  assert (forall s, OAuthClient.unquote_plus (OAuthClient.quote_plus s) = s)
    as Hround.
  { induction s as [|c s IH]; [done|]. simpl.
    destruct (OAuthClient.always_safe c) eqn:Hc.
    - by rewrite unquote_plus_safe, IH.
    - destruct (Ascii.eqb c " ") eqn:Hsp.
      + apply Ascii.eqb_eq in Hsp as ->. simpl. by rewrite IH.
      + pose proof (N_ascii_bounded c) as Hb. simpl.
        rewrite !hex_value_hex_digit, IH.
        * rewrite <- N.div_mod by lia. by rewrite ascii_N_embedding.
        * apply N.mod_lt. lia.
        * apply N.Div0.div_lt_upper_bound. lia. }
  split; [apply Hround|].
  intros Heq. by rewrite <- (Hround s1), <- (Hround s2), Heq.
Qed.

Lemma quote_plus_injective_witness :
  OAuthClient.quote_plus "a b&c" = "a+b%26c"
  /\ OAuthClient.unquote_plus "a+b%26c" = "a b&c"
  /\ "a b&c" = "a b&c".
Proof.
  destruct (quote_plus_injective "a b&c" "a b&c") as [Hround Hinj].
  split; [reflexivity|]. split; [exact Hround|]. apply Hinj. reflexivity.
Defined.

Lemma get_authorization_url_safe self state :
  OAuthClient.all_chars OAuthClient.always_safe state = true ->
  OAuthClient.get_authorization_url self state None
  = "https://www.linkedin.com/oauth/v2/authorization?response_type=code&client_id="
    +:+ OAuthClient.quote_plus (OAuthClient.cfg_client_id self)
    +:+ "&redirect_uri="
    +:+ OAuthClient.quote_plus (OAuthClient.cfg_redirect_uri self)
    +:+ "&state=" +:+ state
    +:+ "&scope=openid+profile+w_member_social+email".
Proof.
  intros Hsafe.
  unfold OAuthClient.get_authorization_url, OAuthClient.urlencode.
  rewrite (quote_plus_safe state Hsafe).
  change (OAuthClient.quote_plus "response_type") with "response_type".
  change (OAuthClient.quote_plus "code") with "code".
  change (OAuthClient.quote_plus "client_id") with "client_id".
  change (OAuthClient.quote_plus "redirect_uri") with "redirect_uri".
  change (OAuthClient.quote_plus "state") with "state".
  change (OAuthClient.quote_plus "scope") with "scope".
  change (OAuthClient.quote_plus
            (OAuthClient.join " " OAuthClient.DEFAULT_SCOPES))
    with "openid+profile+w_member_social+email".
  reflexivity.
Qed.

(** X16. The authorization URL carries the state unchanged: for a state
    made of letters, digits and [_.-~] (such as the URL-safe tokens
    [authorize] generates), [get_authorization_url] is LinkedIn's
    authorization endpoint with the parameters [response_type=code],
    the encoded client id and redirect URI, [state=] followed by the
    state itself, and the four default scopes joined by [+]; an empty
    list of scopes asks for the default scopes too. *)
Theorem get_authorization_url_state self state :
  OAuthClient.all_chars OAuthClient.always_safe state = true ->
  OAuthClient.get_authorization_url self state None
  = "https://www.linkedin.com/oauth/v2/authorization?response_type=code&client_id="
    +:+ OAuthClient.quote_plus (OAuthClient.cfg_client_id self)
    +:+ "&redirect_uri="
    +:+ OAuthClient.quote_plus (OAuthClient.cfg_redirect_uri self)
    +:+ "&state=" +:+ state
    +:+ "&scope=openid+profile+w_member_social+email"
  /\ OAuthClient.get_authorization_url self state (Some [])
     = OAuthClient.get_authorization_url self state None.
Proof.
  intros Hsafe. split; [by apply get_authorization_url_safe|reflexivity].
Qed.

Lemma get_authorization_url_state_witness :
  OAuthClient.get_authorization_url
    {| OAuthClient.cfg_client_id := "abc 123";
       OAuthClient.cfg_client_secret := "secret";
       OAuthClient.cfg_redirect_uri := "http://localhost:8000/oauth/callback" |}
    "Zk3-x_Q" None
  = "https://www.linkedin.com/oauth/v2/authorization?response_type=code&client_id=abc+123&redirect_uri=http%3A%2F%2Flocalhost%3A8000%2Foauth%2Fcallback&state=Zk3-x_Q&scope=openid+profile+w_member_social+email".
Proof.
  destruct (get_authorization_url_state
              {| OAuthClient.cfg_client_id := "abc 123";
                 OAuthClient.cfg_client_secret := "secret";
                 OAuthClient.cfg_redirect_uri :=
                   "http://localhost:8000/oauth/callback" |}
              "Zk3-x_Q" eq_refl) as [-> _].
  reflexivity.
Defined.

(** X17. The user of the passthrough provider is [passthrough_N] with
    [0 <= N < 10000], also for a negative hash, and the presented token
    is handed on unchanged.  The user is therefore not determined by the
    token: whatever the hash, two different tokens share a user. *)
Theorem passthrough_users_collide (hash : string -> Z) :
  (forall token,
      vt_external_access_token (passthrough_validate_access_token hash token)
      = token
      /\ exists n,
          (0 <= n < 10000)%Z
          /\ vt_user_id (passthrough_validate_access_token hash token)
             = "passthrough_"
               +:+ NilEmpty.string_of_uint (N.to_uint (Z.to_N n)))
  /\ exists token1 token2,
      token1 <> token2
      /\ vt_user_id (passthrough_validate_access_token hash token1)
         = vt_user_id (passthrough_validate_access_token hash token2).
Proof.
  split.
  - intros token. split; [done|].
    exists (hash token mod 10000)%Z. split; [|done].
    apply Z.mod_pos_bound. lia.
  - destruct (nat_pigeonhole
                (fun i => Z.to_nat (hash (token_of_length i) mod 10000))
                (Z.to_nat 10001) (Z.to_nat 10000)) as (i1 & i2 & Hi & Heq).
    + lia.
    + intros i _.
      pose proof (Z.mod_pos_bound (hash (token_of_length i)) 10000). lia.
    + exists (token_of_length i1), (token_of_length i2). split.
      * intros Hlen%(f_equal String.length).
        assert (forall n, String.length (token_of_length n) = n) as Hl
          by (induction n; simpl; congruence).
        rewrite !Hl in Hlen. lia.
      * unfold passthrough_validate_access_token, passthrough_user_id. simpl.
        do 3 f_equal.
        pose proof (Z.mod_pos_bound (hash (token_of_length i1)) 10000).
        pose proof (Z.mod_pos_bound (hash (token_of_length i2)) 10000).
        f_equal. lia.
Qed.

Section Flows.
Context {S : Type}.
Variable ops : TokenStore.t S.

(** X18. With LinkedIn's client as [get_authorization_url] builds the URL:
    for a valid client, pending authorizations that name no user and a
    generated state of URL-safe bytes that is not in use, [authorize]
    stores exactly one more pending authorization and returns the
    authorization URL in which [state=] is followed by the generated
    state itself, with the generated state beside it. *)
Theorem authorize_redirect_url now (st : State S) self http params
    linkedin_state :
  TokenStore.validate_client ops (token_store st) (client_id params)
    (redirect_uri params) = true ->
  no_user_ids (_pending_authorizations st) ->
  _pending_authorizations st !! linkedin_state = None ->
  OAuthClient.all_chars OAuthClient.always_safe linkedin_state = true ->
  exists st',
    authorize ops now st (OAuthClient.client self http) params linkedin_state
    = (st',
       Return (ExternalRedirect
                 ("https://www.linkedin.com/oauth/v2/authorization?response_type=code&client_id="
                  +:+ OAuthClient.quote_plus (OAuthClient.cfg_client_id self)
                  +:+ "&redirect_uri="
                  +:+ OAuthClient.quote_plus (OAuthClient.cfg_redirect_uri self)
                  +:+ "&state=" +:+ linkedin_state
                  +:+ "&scope=openid+profile+w_member_social+email")
                 linkedin_state))
    /\ size (_pending_authorizations st')
       = Datatypes.S (size (_pending_authorizations st))
    /\ _pending_authorizations st' !! linkedin_state = Some (pending_of params).
Proof.
  intros Hv Hinv Hfresh Hsafe.
  assert (forall user_id, ~ linked ops now st params user_id) as Hnot.
  { intros uid ((p & Hp & Hu) & _). apply Hinv in Hp. congruence. }
  rewrite (authorize_not_linked ops _ _ _ _ _ Hv Hnot).
  eexists. split; [|split].
  - simpl. by rewrite get_authorization_url_safe.
  - simpl. by apply map_size_insert_None.
  - simpl. apply lookup_insert_eq.
Qed.

(** X19. Proxy mode hands LinkedIn's own tokens to the client: after
    [authorize] redirected and the callback succeeded, the exchange of
    the returned code by the client of the request, within 600 seconds
    and with a verifier if a challenge and method were given, returns
    the access token and the refresh token that LinkedIn issued for the
    callback's code, with the scope of the request.  The token store is
    any store that returns an external token just linked and keeps it
    when a code is created. *)
Theorem proxy_round_trip t0 t1 t2 (st : State S) linkedin0 linkedin1 params
    linkedin_state url st1 code st2 cb code_verifier :
  link_then_get ops ->
  code_creation_keeps_external_tokens ops ->
  authorize ops t0 st linkedin0 params linkedin_state
  = (st1, Return (ExternalRedirect url linkedin_state)) ->
  handle_external_callback ops t1 st1 linkedin1 code linkedin_state
  = (st2, Return cb) ->
  (t2 - t1 < 600)%Z ->
  (truthy (code_challenge params) && truthy (code_challenge_method params) = true ->
   truthy code_verifier = true) ->
  exists st3 token linkedin_token,
    exchange_authorization_code ops true t2 st2 (cb_code cb) (client_id params)
      (cb_redirect_uri cb) code_verifier = (st3, Return token)
    /\ LinkedInOAuthClient.exchange_code_for_token linkedin1 code
       = Some linkedin_token
    /\ Some (access_token token) = tr_access_token linkedin_token
    /\ refresh_token token = tr_refresh_token linkedin_token
    /\ token_scope token = scope params
    /\ _authorization_code_cache st3 !! cb_code cb = None.
Proof.
  intros Hlink Hkeep Hauth Hcb Hage Hv.
  apply authorize_redirect in Hauth as [_ ->].
  apply handle_external_callback_return in Hcb
    as (pending & tok & a & uid & store2 & Hp & Hx & Ha & Hu & Hcreate & -> & _
        & Hruri).
  simpl in Hp. rewrite lookup_insert_eq in Hp. injection Hp as <-.
  rewrite Hruri. simpl in *.
  set (cd := {| cd_user_id := uid;
                cd_client_id := client_id params;
                cd_redirect_uri := redirect_uri params;
                cd_scope := scope params;
                cd_code_challenge := code_challenge params;
                cd_code_challenge_method := code_challenge_method params;
                cd_created_at := t1 |}) in *.
  pose proof (exchange_cached ops true t2
                (Build_State (<[cb_code cb := cd]> (_authorization_code_cache st))
                   store2 (delete linkedin_state
                             (<[linkedin_state := pending_of params]>
                                (_pending_authorizations st))))
                (cb_code cb) cd code_verifier) as Hex.
  simpl in Hex. rewrite Hex; [|apply lookup_insert_eq|done|done]. clear Hex.
  pose proof (Hkeep (TokenStore.link_external_token ops (token_store st) t1 uid a
                       (tr_refresh_token tok)
                       (default 5184000%Z (tr_expires_in tok)) "linkedin")
                t1 uid (client_id params) (redirect_uri params) (scope params)
                (code_challenge params) (code_challenge_method params) t2 uid
                "linkedin") as Hget.
  rewrite Hcreate in Hget. simpl in Hget. rewrite Hget.
  destruct (Hlink (token_store st) t1 uid a (tr_refresh_token tok)
              (default 5184000%Z (tr_expires_in tok)) "linkedin" t2)
    as (lt & -> & Hacc & Hrefresh).
  do 3 eexists. split; [reflexivity|]. simpl.
  rewrite Hacc, Hrefresh, Ha. repeat split; try done.
  apply lookup_delete_eq.
Qed.

End Flows.

Lemma mem_store_link_then_get pkce : link_then_get (MemStore.ops pkce).
Proof.
  intros s now uid access refresh expires provider now'. simpl.
  unfold MemStore.get_external_token, MemStore.link_external_token. simpl.
  rewrite lookup_insert_eq. by eexists.
Qed.

Lemma mem_store_code_creation_keeps_external_tokens pkce :
  code_creation_keeps_external_tokens (MemStore.ops pkce).
Proof. by intros s now uid cid ruri sc ch m now' uid' provider. Qed.

Lemma authorize_redirect_url_witness :
  exists st',
    authorize Example.ops 0 Example.st0
      (OAuthClient.client
         {| OAuthClient.cfg_client_id := "abc 123";
            OAuthClient.cfg_client_secret := "secret";
            OAuthClient.cfg_redirect_uri := "http://localhost:8000/oauth/callback" |}
         Example.linkedin)
      (Example.params None None) "Zk3-x_Q"
    = (st',
       Return (ExternalRedirect
                 "https://www.linkedin.com/oauth/v2/authorization?response_type=code&client_id=abc+123&redirect_uri=http%3A%2F%2Flocalhost%3A8000%2Foauth%2Fcallback&state=Zk3-x_Q&scope=openid+profile+w_member_social+email"
                 "Zk3-x_Q"))
    /\ size (_pending_authorizations st') = 1.
Proof.
  destruct (authorize_redirect_url Example.ops 0 Example.st0
              {| OAuthClient.cfg_client_id := "abc 123";
                 OAuthClient.cfg_client_secret := "secret";
                 OAuthClient.cfg_redirect_uri :=
                   "http://localhost:8000/oauth/callback" |}
              Example.linkedin (Example.params None None) "Zk3-x_Q")
    as (st' & Hauth & Hsize & _).
  - reflexivity.
  - intros s e H. vm_compute in H. discriminate.
  - reflexivity.
  - reflexivity.
  - exists st'. split; [exact Hauth|exact Hsize].
Defined.

Lemma proxy_round_trip_witness :
  exists st3 token,
    exchange_authorization_code Example.ops true 300
      (Example.called_back None None 100) "code-0" "client-1" Example.cb_uri None
    = (st3, Return token)
    /\ access_token token = "li-access"
    /\ refresh_token token = Some "li-refresh".
Proof.
  destruct (proxy_round_trip Example.ops 0 100 300 Example.st0 Example.linkedin
              Example.linkedin (Example.params None None) "ls-1"
              "https://www.linkedin.com/oauth/v2/authorization?state=ls-1"
              (Example.authorized None None) "li-code"
              (Example.called_back None None 100)
              {| cb_code := "code-0"; cb_state := "s1";
                 cb_redirect_uri := Example.cb_uri |} None
              (mem_store_link_then_get MemStore.plain)
              (mem_store_code_creation_keeps_external_tokens MemStore.plain))
    as (st3 & token & lt & Hex & Hx & Hacc & Href & _).
  - vm_compute. reflexivity.
  - vm_compute. reflexivity.
  - lia.
  - discriminate.
  - exists st3, token. split; [exact Hex|].
    vm_compute in Hx. injection Hx as <-. simpl in Hacc, Href.
    split; [by injection Hacc|exact Href].
Defined.
